(** * Follow-up edit reconciliation, snapshot history and conversation ledger

    A shallow embedding of the deterministic core of the prompt-to-motion-
    graphics application:

    - [JS]            the ECMAScript string operations the generation route
                      relies on ([includes], [indexOf], [split], [replace]
                      with its [GetSubstitution] step);
    - [Generate]      [getLineNumber], [applyEdits] and the follow-up decision
                      handling of the generation route's [POST];
    - [SessionHistory], [SupabaseHistory]
                      the two undo/redo history hooks;
    - [Conversation]  the conversation-state hook;
    - [Landing]       the relative dates of the landing page.

    Definitions come first, theorems after them. *)

From Stdlib Require Import String Ascii Decimal DecimalString.
From Stdlib Require Import Bool Arith NArith ZArith Lia List.
Import ListNotations.

(* ================================================================== *)
(** * Part I: definitions                                              *)
(* ================================================================== *)

(** ** ECMAScript strings *)

Module JS.

(** A JavaScript string is a finite sequence of 16-bit code units.  The
    operations below only compare code units for equality, so a code unit is
    kept as its numeric value. *)
Definition codeunit := N.
Definition jsstring := list codeunit.

(** A string literal of the source (ASCII only). *)
Definition lit (s : string) : jsstring :=
  map N_of_ascii (list_ascii_of_string s).

Definition LF : codeunit := 10%N.        (* "\n" *)
Definition DOLLAR : codeunit := 36%N.    (* "$" *)
Definition AMP : codeunit := 38%N.       (* "&" *)
Definition QUOTE : codeunit := 39%N.     (* "'" *)
Definition LESS : codeunit := 60%N.      (* "<" *)
Definition BACKTICK : codeunit := 96%N.  (* "`" *)

Definition isDigit (c : codeunit) : bool :=
  (48 <=? c)%N && (c <=? 57)%N.

Definition digitValue (c : codeunit) : N := (c - 48)%N.

(** [Number.prototype.toString] on an integer, as a template literal
    [`${n}`] renders it. *)
Definition numberToString (z : Z) : jsstring :=
  lit (NilZero.string_of_int (Z.to_int z)).

(** Strict equality [===] on strings. *)
Fixpoint strEq (a b : jsstring) : bool :=
  match a, b with
  | [], [] => true
  | x :: a', y :: b' => N.eqb x y && strEq a' b'
  | _, _ => false
  end.

(** [s] starts with [p] (the comparison of [StringIndexOf] at one offset). *)
Fixpoint startsWith (s p : jsstring) {struct p} : bool :=
  match p with
  | [] => true
  | a :: p' =>
      match s with
      | [] => false
      | b :: s' => N.eqb a b && startsWith s' p'
      end
  end.

(** [StringIndexOf(s, search, 0)]: the smallest offset at which [search]
    occurs, [None] for not-found ([-1] in [String.prototype.indexOf]). *)
Fixpoint indexOf (s search : jsstring) : option nat :=
  if startsWith s search then Some 0%nat
  else match s with
       | [] => None
       | _ :: s' => option_map S (indexOf s' search)
       end.

(** [String.prototype.includes]. *)
Definition includes (s search : jsstring) : bool :=
  match indexOf s search with
  | Some _ => true
  | None => false
  end.

(** [s.substring(from, to)] for [0 <= from <= to <= s.length]. *)
Definition substring (s : jsstring) (from to : nat) : jsstring :=
  firstn (to - from) (skipn from s).

(** The loop of [String.prototype.split] for a non-empty separator, run on
    the part of the string that starts at the current offset [i]: find the
    next separator at [j], emit the piece between, continue after it.  Each
    round consumes at least one code unit, so [length s] rounds suffice. *)
Fixpoint splitLoop (fuel : nat) (rest sep : jsstring) : list jsstring :=
  match fuel with
  | O => [rest]
  | S fuel' =>
      match indexOf rest sep with
      | None => [rest]
      | Some j =>
          firstn j rest :: splitLoop fuel' (skipn (j + length sep) rest) sep
      end
  end.

(** [String.prototype.split(separator)] with a string separator and no
    limit argument: an empty separator splits into single code units, an
    empty subject gives one empty piece.  (The default limit of 2^32-1
    pieces is above every engine's maximal string length.) *)
Definition split (s sep : jsstring) : list jsstring :=
  match sep with
  | [] => map (fun c => [c]) s
  | _ :: _ =>
      match s with
      | [] => [s]
      | _ :: _ => splitLoop (length s) s sep
      end
  end.

(** [GetSubstitution(matched, str, position, captures, namedCaptures,
    template)] with no captures and [namedCaptures] undefined, which is how
    [String.prototype.replace] calls it for a string pattern:
    [$$] gives [$], [$`] the text before the match, [$&] the match,
    [$'] the text after it; [$n], [$nn] and [$<] stay as they are. *)
Fixpoint getSubstitution (matched str : jsstring) (position : nat)
  (template : jsstring) : jsstring :=
  match template with
  | [] => []
  | c :: t1 =>
      if N.eqb c DOLLAR then
        match t1 with
        | [] => [c]
        | d :: t2 =>
            if N.eqb d DOLLAR then
              DOLLAR :: getSubstitution matched str position t2
            else if N.eqb d BACKTICK then
              firstn position str ++ getSubstitution matched str position t2
            else if N.eqb d AMP then
              matched ++ getSubstitution matched str position t2
            else if N.eqb d QUOTE then
              skipn (Nat.min (position + length matched) (length str)) str
                ++ getSubstitution matched str position t2
            else if isDigit d then
              match t2 with
              | e :: t3 =>
                  if isDigit e && N.eqb (10 * digitValue d + digitValue e) 0
                  then c :: d :: e :: getSubstitution matched str position t3
                  else c :: d :: getSubstitution matched str position t2
              | [] => c :: d :: getSubstitution matched str position t2
              end
            else if N.eqb d LESS then
              c :: d :: getSubstitution matched str position t2
            else
              c :: getSubstitution matched str position t1
        end
      else c :: getSubstitution matched str position t1
  end.

(** [String.prototype.replace(searchString, replaceValue)] with both
    arguments strings: only the first occurrence is replaced, and the
    replacement text is the substitution template expanded. *)
Definition replace (s searchString replaceValue : jsstring) : jsstring :=
  match indexOf s searchString with
  | None => s
  | Some position =>
      let preceding := firstn position s in
      let following := skipn (position + length searchString) s in
      preceding ++ getSubstitution searchString s position replaceValue
                ++ following
  end.

(** [Array.prototype.slice(start, end)]: negative arguments count from the
    end, both are clamped to the array. *)
Definition relativeIndex (len k : Z) : Z :=
  if (k <? 0)%Z then Z.max (len + k) 0 else Z.min k len.

Definition slice {A : Type} (l : list A) (start stop : Z) : list A :=
  let len := Z.of_nat (length l) in
  let k := relativeIndex len start in
  let final := relativeIndex len stop in
  firstn (Z.to_nat (Z.max (final - k) 0)) (skipn (Z.to_nat k) l).

(** [l.slice(start)]. *)
Definition sliceFrom {A : Type} (l : list A) (start : Z) : list A :=
  slice l start (Z.of_nat (length l)).

(** [l[i]]: [None] stands for [undefined]. *)
Definition at_index {A : Type} (l : list A) (i : Z) : option A :=
  if (i <? 0)%Z then None else nth_error l (Z.to_nat i).

End JS.

Import JS.

(** ** The generation route: patch application *)

Module Generate.

Record EditOperation : Type := {
  description : jsstring;
  old_string : jsstring;
  new_string : jsstring;
  lineNumber : option Z
}.

(** The object [applyEdits] returns; absent optional fields are [None]. *)
Record ApplyResult : Type := {
  success : bool;
  result : jsstring;
  error : option jsstring;
  enrichedEdits : option (list EditOperation);
  failedEdit : option EditOperation
}.

(** Line (1-based) on which [searchString] first occurs, [-1] if absent. *)
Definition getLineNumber (code searchString : jsstring) : Z :=
  match indexOf code searchString with
  | None => (-1)%Z
  | Some index => Z.of_nat (length (split (substring code 0 index) [LF]))
  end.

(** [`Edit ${i + 1} failed: Could not find the specified text`] *)
Definition notFoundMessage (i : nat) : jsstring :=
  lit "Edit " ++ numberToString (Z.of_nat i + 1)
    ++ lit " failed: Could not find the specified text".

(** [`Edit ${i + 1} failed: Found ${matches} matches. The edit target is
    ambiguous.`] *)
Definition ambiguousMessage (i : nat) (matches : Z) : jsstring :=
  lit "Edit " ++ numberToString (Z.of_nat i + 1)
    ++ lit " failed: Found " ++ numberToString matches
    ++ lit " matches. The edit target is ambiguous.".

(** [result.split(old_string).length - 1] *)
Definition countMatches (buffer old : jsstring) : Z :=
  Z.of_nat (length (split buffer old)) - 1.

(** The [for] loop of [applyEdits] from index [i] on, with the running
    buffer [result] and the edits enriched so far. *)
Fixpoint applyLoop (code : jsstring) (i : nat) (result : jsstring)
  (enriched : list EditOperation) (edits : list EditOperation) : ApplyResult :=
  match edits with
  | [] =>
      {| success := true; result := result; error := None;
         enrichedEdits := Some enriched; failedEdit := None |}
  | edit :: rest =>
      if negb (includes result (old_string edit)) then
        {| success := false; result := code;
           error := Some (notFoundMessage i);
           enrichedEdits := None; failedEdit := Some edit |}
      else
        let matches := countMatches result (old_string edit) in
        if (1 <? matches)%Z then
          {| success := false; result := code;
             error := Some (ambiguousMessage i matches);
             enrichedEdits := None; failedEdit := Some edit |}
        else
          let line := getLineNumber result (old_string edit) in
          applyLoop code (S i)
            (replace result (old_string edit) (new_string edit))
            (enriched ++
               [ {| description := description edit;
                    old_string := old_string edit;
                    new_string := new_string edit;
                    lineNumber := Some line |} ])
            rest
  end.

Definition applyEdits (code : jsstring) (edits : list EditOperation)
  : ApplyResult :=
  applyLoop code 0 code [] edits.

(** The enriched edits of a result, none if the field is absent. *)
Definition enrichedOf (r : ApplyResult) : list EditOperation :=
  match enrichedEdits r with
  | Some l => l
  | None => []
  end.

(** *** Follow-up decision handling in [POST] *)

Inductive ResponseType : Type := edit | full.

(** The object validated by [FollowUpResponseSchema]: a flat record whose
    [edits] and [code] are nullable. *)
Record FollowUpResponse : Type := {
  type : ResponseType;
  summary : jsstring;
  edits : option (list EditOperation);
  code : option jsstring
}.

Inductive EditType : Type := tool_edit | full_replacement.

(** What the follow-up branch answers: the 200 body of [GenerateResponse]
    (code, summary and the metadata fields skills, editType, edits, model) or
    a 400 body with [error], [type] and, when present, [failedEdit]. *)
Inductive HttpResponse : Type :=
| Json200 (finalCode summary : jsstring) (skills : list jsstring)
    (editType : EditType) (appliedEdits : option (list EditOperation))
    (model : jsstring)
| Json400 (error type : jsstring) (failedEdit : option EditOperation).

(** Truthiness of a nullable array: every array, empty or not, is truthy. *)
Definition truthyArray {A : Type} (o : option (list A)) : bool :=
  match o with
  | Some _ => true
  | None => false
  end.

(** Truthiness of a nullable string: [null] and the empty string are falsy. *)
Definition truthyString (o : option jsstring) : bool :=
  match o with
  | Some (_ :: _) => true
  | _ => false
  end.

Definition invalidResponse : HttpResponse :=
  Json400 (lit "Invalid AI response: missing required fields")
          (lit "edit_failed") None.

(** The statements of [POST] from [const response = editResult.object] to
    the final [return], for the decision [response] of the model. *)
Definition isEdit (t : ResponseType) : bool :=
  match t with edit => true | full => false end.

Definition isFull (t : ResponseType) : bool :=
  match t with full => true | edit => false end.

(** The value of a nullable field known to be present. *)
Definition orEmpty {A : Type} (o : option (list A)) : list A :=
  match o with
  | Some l => l
  | None => []
  end.

Definition followUpDecision (currentCode : jsstring)
  (response : FollowUpResponse) (detectedSkills : list jsstring)
  (modelName : jsstring) : HttpResponse :=
  if isEdit (type response) && truthyArray (edits response) then
    let r := applyEdits currentCode (orEmpty (edits response)) in
    if negb (success r) then
      Json400 (orEmpty (error r)) (lit "edit_failed") (failedEdit r)
    else
      Json200 (result r) (summary response) detectedSkills tool_edit
              (enrichedEdits r) modelName
  else if isFull (type response) && truthyString (code response) then
    Json200 (orEmpty (code response)) (summary response) detectedSkills
            full_replacement None modelName
  else invalidResponse.

(** Did the turn settle with new code? *)
Definition succeeded (r : HttpResponse) : bool :=
  match r with
  | Json200 _ _ _ _ _ _ => true
  | Json400 _ _ _ => false
  end.

(** *** The rest of [POST]: request parsing and the follow-up prompt *)

(** An entry of [ASPECT_RATIOS]. *)
Record AspectRatioConfig : Type := {
  id : jsstring;
  label : jsstring;
  width : Z;
  height : Z
}.

Definition ASPECT_RATIOS : list AspectRatioConfig :=
  [ {| id := lit "16:9"; label := lit "16:9 Landscape";
       width := 1920; height := 1080 |};
    {| id := lit "9:16"; label := lit "9:16 Portrait";
       width := 1080; height := 1920 |};
    {| id := lit "1:1"; label := lit "1:1 Square";
       width := 1080; height := 1080 |} ].

(** [ASPECT_RATIOS.find((ar) => ar.id === aspectRatio) ?? ASPECT_RATIOS[0]],
    as both the generation route and the render route compute it.  The
    requested ratio comes out of a JSON body: [None] stands for a value that
    is not a string, which is [===] to no identifier. *)
Definition arConfig (aspectRatio : option jsstring) : AspectRatioConfig :=
  match find (fun ar => match aspectRatio with
                        | Some a => strEq (id ar) a
                        | None => false
                        end) ASPECT_RATIOS with
  | Some ar => ar
  | None => nth 0 ASPECT_RATIOS
              {| id := []; label := []; width := 0; height := 0 |}
  end.

(** The model identifier of the request: provider prefix, model name and
    reasoning effort ([None] for [undefined]).
    [isBedrock = model.startsWith("bedrock:")],
    [modelKey = isBedrock ? model.slice("bedrock:".length) : model],
    [[modelName, reasoningEffort] = modelKey.split(":")]. *)
Definition parseModel (model : jsstring)
  : bool * option jsstring * option jsstring :=
  let isBedrock := startsWith model (lit "bedrock:") in
  let modelKey :=
    if isBedrock
    then sliceFrom model (Z.of_nat (length (lit "bedrock:")))
    else model in
  let pieces := split modelKey (lit ":") in
  (isBedrock, nth_error pieces 0, nth_error pieces 1).

(** [detectedSkills.filter((skill) => !previouslyUsedSkills.includes(skill))] *)
Definition newSkills (detectedSkills previouslyUsedSkills : list jsstring)
  : list jsstring :=
  filter (fun skill => negb (existsb (strEq skill) previouslyUsedSkills))
         detectedSkills.

(** A message of the request's [conversationHistory]. *)
Inductive ContextRole : Type := user | assistant.

Record ConversationContextMessage : Type := {
  role : ContextRole;
  content : jsstring;
  attachedImages : option (list jsstring)
}.

(** [m.role.toUpperCase()] *)
Definition roleToUpperCase (r : ContextRole) : jsstring :=
  match r with
  | user => lit "USER"
  | assistant => lit "ASSISTANT"
  end.

(** [Array.prototype.join(separator)] *)
Fixpoint join (sep : jsstring) (l : list jsstring) : jsstring :=
  match l with
  | [] => []
  | [x] => x
  | x :: rest => x ++ sep ++ join sep rest
  end.

(** The line of one message:
    [`${m.role.toUpperCase()}: ${m.content}${imageNote}`]. *)
Definition contextLine (m : ConversationContextMessage) : jsstring :=
  let imageNote :=
    match attachedImages m with
    | Some (i :: imgs) =>
        lit " [with " ++ numberToString (Z.of_nat (length (i :: imgs)))
          ++ lit " attached image"
          ++ (if (1 <? Z.of_nat (length (i :: imgs)))%Z then lit "s" else [])
          ++ lit "]"
    | _ => []
    end in
  roleToUpperCase (role m) ++ lit ": " ++ content m ++ imageNote.

(** [conversationHistory.slice(-6)] *)
Definition contextMessages (conversationHistory : list ConversationContextMessage)
  : list ConversationContextMessage :=
  sliceFrom conversationHistory (-6).

(** The "recent conversation" block of the follow-up prompt. *)
Definition conversationContext
  (conversationHistory : list ConversationContextMessage) : jsstring :=
  match contextMessages conversationHistory with
  | [] => []
  | m :: ms =>
      [LF; LF] ++ lit "## RECENT CONVERSATION:" ++ [LF]
        ++ join [LF] (map contextLine (m :: ms))
  end.

(** [errorCorrection.error.includes("Edit") &&
     errorCorrection.error.includes("failed")]: which of the two correction
    notices the follow-up prompt carries. *)
Definition isEditFailure (error : jsstring) : bool :=
  includes error (lit "Edit") && includes error (lit "failed").

End Generate.

(** ** Snapshot history *)

(** What the two history hooks share: the snapshot record, the replies of
    the persistence client, and the statements of [saveSnapshot], [undo] and
    [redo] that are the same in both. *)
Module History.

(** A row of [code_snapshots]. *)
Record CodeSnapshot : Type := {
  id : jsstring;
  session_id : jsstring;
  code : jsstring;
  prompt : option jsstring;
  summary : option jsstring;
  skills : option (list jsstring);
  sequence_number : Z;
  created_at : jsstring
}.

(** The object passed to [insert]. *)
Record InsertRow : Type := {
  row_session_id : jsstring;
  row_code : jsstring;
  row_prompt : jsstring;
  row_summary : jsstring;
  row_skills : list jsstring;
  row_sequence_number : Z
}.

(** The [{ data, error }] pair every call of the persistence client
    resolves to; both are nullable. *)
Record Reply (A : Type) : Type := {
  data : option A;
  error : option jsstring
}.

Arguments data {A} _.
Arguments error {A} _.

(** Calls made to the remote store, in order. *)
Inductive RemoteCall : Type :=
| Insert (row : InsertRow)
| Delete (ids : list jsstring).

(** A function either returns or throws (here: the TypeError of reading
    [.code] of [undefined]). *)
Inductive Outcome (A : Type) : Type :=
| Returns (a : A)
| Throws.

Arguments Returns {A} _.
Arguments Throws {A}.

(** The state both hooks keep.  The [useRef] mirrors are assigned together
    with the [useState] values they shadow, so one value stands for each
    pair. *)
Record State : Type := {
  snapshots : list CodeSnapshot;
  currentIndex : Z;
  isLoaded : bool
}.

Definition initial : State :=
  {| snapshots := []; currentIndex := (-1)%Z; isLoaded := false |}.

Definition setLoaded (b : bool) (st : State) : State :=
  {| snapshots := snapshots st; currentIndex := currentIndex st;
     isLoaded := b |}.

Definition setCurrentIndex (i : Z) (st : State) : State :=
  {| snapshots := snapshots st; currentIndex := i; isLoaded := isLoaded st |}.

Definition len {A : Type} (l : list A) : Z := Z.of_nat (length l).

(** [current.slice(0, idx + 1)] *)
Definition activeSnapshots (st : State) : list CodeSnapshot :=
  slice (snapshots st) 0 (currentIndex st + 1).

(** The row [saveSnapshot] inserts for session [sid]. *)
Definition insertRow (sid : jsstring) (st : State)
  (code prompt summary : jsstring) (skills : list jsstring) : InsertRow :=
  {| row_session_id := sid; row_code := code; row_prompt := prompt;
     row_summary := summary; row_skills := skills;
     row_sequence_number := len (activeSnapshots st) |}.

(** [error || !data] *)
Definition failed {A : Type} (r : Reply A) : bool :=
  match error r, data r with
  | None, Some _ => false
  | _, _ => true
  end.

(** The rows of a reply that did not fail. *)
Definition rowsOf {A : Type} (reply : Reply (list A)) : list A :=
  match data reply with
  | Some rows => rows
  | None => []
  end.

(** [saveSnapshot] once the session identifier [sid] is known: insert,
    give up on a failed insert, otherwise delete the rows beyond the cursor
    by identifier and append the stored row to the active prefix. *)
Definition saveWith (sid : jsstring) (st : State)
  (code prompt summary : jsstring) (skills : list jsstring)
  (reply : Reply CodeSnapshot) : State * list RemoteCall :=
  let current := snapshots st in
  let idx := currentIndex st in
  let row := insertRow sid st code prompt summary skills in
  if failed reply then (st, [Insert row])
  else
    match data reply with
    | None => (st, [Insert row])
    | Some stored =>
        let deletes :=
          if (idx <? len current - 1)%Z
          then [Delete (map id (sliceFrom current (idx + 1)))]
          else [] in
        let newSnapshots := activeSnapshots st ++ [stored] in
        ({| snapshots := newSnapshots;
            currentIndex := len newSnapshots - 1;
            isLoaded := isLoaded st |},
         Insert row :: deletes)
    end.

Definition undo (st : State) : State * Outcome (option jsstring) :=
  let idx := currentIndex st in
  if (idx <=? 0)%Z then (st, Returns None)
  else
    let newIdx := (idx - 1)%Z in
    match at_index (snapshots st) newIdx with
    | Some s => (setCurrentIndex newIdx st, Returns (Some (code s)))
    | None => (setCurrentIndex newIdx st, Throws)
    end.

Definition redo (st : State) : State * Outcome (option jsstring) :=
  let idx := currentIndex st in
  let snaps := snapshots st in
  if (len snaps - 1 <=? idx)%Z then (st, Returns None)
  else
    let newIdx := (idx + 1)%Z in
    match at_index snaps newIdx with
    | Some s => (setCurrentIndex newIdx st, Returns (Some (code s)))
    | None => (setCurrentIndex newIdx st, Throws)
    end.

Definition canUndo (st : State) : bool := (0 <? currentIndex st)%Z.

Definition canRedo (st : State) : bool :=
  (currentIndex st <? len (snapshots st) - 1)%Z.

Definition latestCode (st : State) : option jsstring :=
  match at_index (snapshots st) (len (snapshots st) - 1) with
  | Some s => Some (code s)
  | None => None
  end.

(** The cursor invariant of the data model. *)
Definition cursorInvariant (st : State) : Prop :=
  (-1 <= currentIndex st < len (snapshots st))%Z.

(** The empty state is the one with cursor [-1]. *)
Definition emptyIffMinusOne (st : State) : Prop :=
  currentIndex st = (-1)%Z <-> snapshots st = [].

(** The stored row repeats what was inserted. *)
Definition storedAs (row : InsertRow) (s : CodeSnapshot) : Prop :=
  session_id s = row_session_id row /\ code s = row_code row /\
  sequence_number s = row_sequence_number row.

(** Sequence numbers [0, 1, ..., n-1] in list order. *)
Definition denseFrom (k : Z) (l : list CodeSnapshot) : Prop :=
  map sequence_number l = map (fun i => (k + Z.of_nat i)%Z) (seq 0 (length l)).

(** What holds of every history built by saves, undos and redos: the cursor
    invariant, cursor [-1] for the empty history only, one snapshot per
    identifier, and sequence numbers [0, 1, ...] in list order. *)
Definition wellFormed (st : State) : Prop :=
  cursorInvariant st /\ emptyIffMinusOne st /\
  NoDup (map id (snapshots st)) /\ denseFrom 0 (snapshots st).

(** States reached from the empty history by saves, undos and redos.  A
    save either fails at the insert, or its stored row repeats the inserted
    one under an identifier no snapshot in memory has ([id] is the primary
    key of [code_snapshots]). *)
Inductive reachable : State -> Prop :=
| reach_initial : reachable initial
| reach_save_failed sid st c p s k reply :
    reachable st -> failed reply = true ->
    reachable (fst (saveWith sid st c p s k reply))
| reach_save sid st c p s k reply stored :
    reachable st ->
    error reply = None -> data reply = Some stored ->
    storedAs (insertRow sid st c p s k) stored ->
    ~ In (id stored) (map id (snapshots st)) ->
    reachable (fst (saveWith sid st c p s k reply))
| reach_undo st : reachable st -> reachable (fst (undo st))
| reach_redo st : reachable st -> reachable (fst (redo st)).

(** [savedN n st]: [st] is the empty history after [n] saves in a row, each
    of them stored as inserted. *)
Inductive savedN : nat -> State -> Prop :=
| saved_none : savedN 0 initial
| saved_next n sid st c p s k reply stored :
    savedN n st ->
    error reply = None -> data reply = Some stored ->
    storedAs (insertRow sid st c p s k) stored ->
    savedN (S n) (fst (saveWith sid st c p s k reply)).

(** The snapshots beyond the cursor. *)
Definition redoTail (st : State) : list CodeSnapshot :=
  sliceFrom (snapshots st) (currentIndex st + 1).

(** What is said of [undo()] followed by [save(...)] in state [st], when
    the insert is answered with the row [stored], stored as inserted under a
    fresh identifier: the sequence number of the new snapshot is the cursor
    position before the undo, and no snapshot beyond the cursor at save time
    is in the resulting list. *)
Definition undoThenSaveTruncates (sid : jsstring) (st : State)
  (c p s : jsstring) (k : list jsstring) (stored : CodeSnapshot) : Prop :=
  let st1 := fst (undo st) in
  let st2 := fst (saveWith sid st1 c p s k
                    {| data := Some stored; error := None |}) in
  storedAs (insertRow sid st1 c p s k) stored ->
  ~ In (id stored) (map id (snapshots st)) ->
  sequence_number stored = currentIndex st /\
  forall x, In x (redoTail st1) -> ~ In x (snapshots st2).

(** The identifiers a sequence of remote calls deletes. *)
Definition deletedIds (calls : list RemoteCall) : list jsstring :=
  flat_map (fun call => match call with
                        | Delete ids => ids
                        | Insert _ => []
                        end) calls.

(** The rows a sequence of remote calls inserts. *)
Definition insertedRows (calls : list RemoteCall) : list InsertRow :=
  flat_map (fun call => match call with
                        | Insert row => [row]
                        | Delete _ => []
                        end) calls.

End History.

(** *** [useSessionHistory]: the session identifier comes from the URL *)

Module SessionHistory.
Import History.

(** [loadSnapshots]: on an error or a null result only [isLoaded] is set;
    otherwise the rows replace the list and the cursor moves to the last
    row, if there is one. *)
Definition loadSnapshots (st : State) (reply : Reply (list CodeSnapshot))
  : State :=
  if failed reply then setLoaded true st
  else
    let rows := rowsOf reply in
    let lastIdx := (len rows - 1)%Z in
    {| snapshots := rows;
       currentIndex := if (0 <=? lastIdx)%Z then lastIdx
                       else currentIndex st;
       isLoaded := true |}.

(** The effect that runs when [sessionId] changes. *)
Definition sessionIdEffect (sessionId : jsstring) (st : State)
  (reply : Reply (list CodeSnapshot)) : State :=
  match sessionId with
  | [] => setLoaded true st
  | _ :: _ => loadSnapshots (setLoaded false st) reply
  end.

Definition saveSnapshot (sessionId : jsstring) (st : State)
  (code prompt summary : jsstring) (skills : list jsstring)
  (reply : Reply CodeSnapshot) : State * list RemoteCall :=
  saveWith sessionId st code prompt summary skills reply.

Definition undo : State -> State * Outcome (option jsstring) := History.undo.
Definition redo : State -> State * Outcome (option jsstring) := History.redo.

(** The hook instance: the [sessionId] of its last render ([None] before
    the first render), and its state. *)
Record Hook : Type := {
  sessionId : option jsstring;
  state : State
}.

Definition mounted : Hook := {| sessionId := None; state := initial |}.

(** One call on the hook, with the reply of the store where it makes one.
    [Load sid reply] is a render with session identifier [sid]; [reply] is
    what the store answers if the render loads. *)
Inductive Op : Type :=
| Load (sid : jsstring) (reply : Reply (list CodeSnapshot))
| Save (code prompt summary : jsstring) (skills : list jsstring)
    (reply : Reply CodeSnapshot)
| Undo
| Redo.

(** [useEffect(..., [sessionId])]: the effect runs after the first render
    and after every render whose [sessionId] differs from that of the render
    before. *)
Definition depsChanged (previous : option jsstring) (sid : jsstring) : bool :=
  match previous with
  | None => true
  | Some p => negb (strEq p sid)
  end.

(** [saveSnapshot], [undo] and [redo] are what a render returns: before the
    first render there is nothing to call, and [Save] closes over the
    [sessionId] of the last render. *)
Definition step (h : Hook) (op : Op) : Hook :=
  match op with
  | Load sid reply =>
      {| sessionId := Some sid;
         state := if depsChanged (sessionId h) sid
                  then sessionIdEffect sid (state h) reply
                  else state h |}
  | Save c p s k reply =>
      match sessionId h with
      | Some sid =>
          {| sessionId := sessionId h;
             state := fst (saveSnapshot sid (state h) c p s k reply) |}
      | None => h
      end
  | Undo => {| sessionId := sessionId h; state := fst (undo (state h)) |}
  | Redo => {| sessionId := sessionId h; state := fst (redo (state h)) |}
  end.

Definition run (ops : list Op) (h : Hook) : Hook := fold_left step ops h.

End SessionHistory.

(** *** [useSupabaseHistory]: the session identifier is kept in localStorage *)

Module SupabaseHistory.
Import History.

(** The hook's state: the shared part, the session identifier (nullable)
    and the [SESSION_KEY] entry of localStorage. *)
Record State : Type := {
  history : History.State;
  sessionId : option jsstring;
  storedSessionId : option jsstring
}.

Definition initial : State :=
  {| history := History.initial; sessionId := None;
     storedSessionId := None |}.

(** [loadSnapshots]: an error, a null result or no rows drop the stored
    session identifier and leave the history as it is. *)
Definition loadSnapshots (sid : jsstring) (st : State)
  (reply : Reply (list CodeSnapshot)) : State :=
  if failed reply || (len (rowsOf reply) =? 0)%Z then
    {| history := setLoaded true (history st);
       sessionId := sessionId st;
       storedSessionId := None |}
  else
    let rows := rowsOf reply in
    {| history := {| snapshots := rows;
                     currentIndex := (len rows - 1)%Z;
                     isLoaded := true |};
       sessionId := Some sid;
       storedSessionId := storedSessionId st |}.

(** The mount effect. *)
Definition mountEffect (st : State) (reply : Reply (list CodeSnapshot))
  : State :=
  match storedSessionId st with
  | Some (c :: cs) => loadSnapshots (c :: cs) st reply
  | _ => {| history := setLoaded true (history st);
            sessionId := sessionId st;
            storedSessionId := storedSessionId st |}
  end.

(** [createSession]: the new identifier, or [None] for [null]. *)
Definition createSession (st : State) (reply : Reply jsstring)
  : State * option jsstring :=
  if failed reply then (st, None)
  else
    match data reply with
    | None => (st, None)
    | Some newId =>
        ({| history := history st; sessionId := Some newId;
            storedSessionId := Some newId |}, Some newId)
    end.

Definition withHistory (st : State) (h : History.State) : State :=
  {| history := h; sessionId := sessionId st;
     storedSessionId := storedSessionId st |}.

(** [saveSnapshot]: a session is created first when there is none (the
    reply [sessionReply] is only consulted then); without one the save is
    given up. *)
Definition saveSnapshot (st : State)
  (code prompt summary : jsstring) (skills : list jsstring)
  (sessionReply : Reply jsstring) (reply : Reply CodeSnapshot)
  : State * list RemoteCall :=
  match sessionId st with
  | Some (c :: cs) =>
      let (h, calls) :=
        saveWith (c :: cs) (history st) code prompt summary skills reply in
      (withHistory st h, calls)
  | _ =>
      match createSession st sessionReply with
      | (st1, Some (c :: cs)) =>
          let (h, calls) :=
            saveWith (c :: cs) (history st1) code prompt summary skills reply
          in (withHistory st1 h, calls)
      | (st1, _) => (st1, [])
      end
  end.

Definition undo (st : State) : State * Outcome (option jsstring) :=
  let (h, r) := History.undo (history st) in (withHistory st h, r).

Definition redo (st : State) : State * Outcome (option jsstring) :=
  let (h, r) := History.redo (history st) in (withHistory st h, r).

Definition startNewSession (st : State) : State :=
  {| history := {| snapshots := []; currentIndex := (-1)%Z;
                   isLoaded := isLoaded (history st) |};
     sessionId := None; storedSessionId := None |}.

End SupabaseHistory.

(** ** The conversation ledger: [useConversationState] *)

Module Conversation.

Inductive Role : Type := user | assistant | error.

Inductive ErrorType : Type := edit_failed | api | validation.

Record AssistantMetadata : Type := {
  skills : list jsstring;
  editType : Generate.EditType;
  edits : option (list Generate.EditOperation)
}.

(** One message of the log; the fields a role does not carry are [None]. *)
Record ConversationMessage : Type := {
  id : jsstring;
  role : Role;
  content : jsstring;
  timestamp : Z;
  attachedImages : option (list jsstring);
  codeSnapshot : option jsstring;
  metadata : option AssistantMetadata;
  errorType : option ErrorType;
  failedEdit : option Generate.EditOperation
}.

Record PendingMessage : Type := {
  pendingSkills : option (list jsstring);
  startedAt : Z
}.

Record ConversationState : Type := {
  messages : list ConversationMessage;
  hasManualEdits : bool;
  lastGenerationTimestamp : option Z;
  pendingMessage : option PendingMessage
}.

(** The hook: its [useState] value and the [lastAiCodeRef] reference. *)
Record Hook : Type := {
  state : ConversationState;
  lastAiCodeRef : jsstring
}.

Definition initial : Hook :=
  {| state := {| messages := []; hasManualEdits := false;
                 lastGenerationTimestamp := None; pendingMessage := None |};
     lastAiCodeRef := [] |}.

(** The message of the LLM-facing view. *)
Record ConversationContextMessage : Type := {
  ctxRole : Role;
  ctxContent : jsstring;
  ctxAttachedImages : option (list jsstring)
}.

Definition isUser (r : Role) : bool :=
  match r with user => true | _ => false end.

Definition isAssistant (r : Role) : bool :=
  match r with assistant => true | _ => false end.

Definition isError (r : Role) : bool :=
  match r with error => true | _ => false end.

Definition GENERATED_CODE : jsstring := lit "[Generated Code]".

(** [Date.now()] is the argument [now] of the operations that read it. *)
Definition addUserMessage (h : Hook) (now : Z) (content : jsstring)
  (attachedImages : option (list jsstring)) : Hook :=
  let message :=
    {| id := lit "user-" ++ numberToString now; role := user;
       content := content; timestamp := now;
       attachedImages := attachedImages; codeSnapshot := None;
       metadata := None; errorType := None; failedEdit := None |} in
  {| state := {| messages := messages (state h) ++ [message];
                 hasManualEdits := hasManualEdits (state h);
                 lastGenerationTimestamp :=
                   lastGenerationTimestamp (state h);
                 pendingMessage := pendingMessage (state h) |};
     lastAiCodeRef := lastAiCodeRef h |}.

Definition addAssistantMessage (h : Hook) (now : Z) (content : jsstring)
  (codeSnapshot : jsstring) (metadata : option AssistantMetadata) : Hook :=
  let message :=
    {| id := lit "assistant-" ++ numberToString now; role := assistant;
       content := content; timestamp := now;
       attachedImages := None; codeSnapshot := Some codeSnapshot;
       metadata := metadata; errorType := None; failedEdit := None |} in
  {| state := {| messages := messages (state h) ++ [message];
                 hasManualEdits := false;
                 lastGenerationTimestamp := Some now;
                 pendingMessage := pendingMessage (state h) |};
     lastAiCodeRef := codeSnapshot |}.

Definition addErrorMessage (h : Hook) (now : Z) (content : jsstring)
  (errorType : ErrorType) (failedEdit : option Generate.EditOperation)
  : Hook :=
  let message :=
    {| id := lit "error-" ++ numberToString now; role := error;
       content := content; timestamp := now;
       attachedImages := None; codeSnapshot := None;
       metadata := None; errorType := Some errorType;
       failedEdit := failedEdit |} in
  {| state := {| messages := messages (state h) ++ [message];
                 hasManualEdits := hasManualEdits (state h);
                 lastGenerationTimestamp :=
                   lastGenerationTimestamp (state h);
                 pendingMessage := pendingMessage (state h) |};
     lastAiCodeRef := lastAiCodeRef h |}.

(** The flag is raised only if the code differs from the last AI
    generation and there is one. *)
Definition markManualEdit (h : Hook) (currentCode : jsstring) : Hook :=
  if negb (strEq currentCode (lastAiCodeRef h))
     && negb (strEq (lastAiCodeRef h) [])
  then
    {| state := {| messages := messages (state h);
                   hasManualEdits := true;
                   lastGenerationTimestamp :=
                     lastGenerationTimestamp (state h);
                   pendingMessage := pendingMessage (state h) |};
       lastAiCodeRef := lastAiCodeRef h |}
  else h.

Definition clearConversation (h : Hook) : Hook :=
  {| state := {| messages := []; hasManualEdits := false;
                 lastGenerationTimestamp := None; pendingMessage := None |};
     lastAiCodeRef := [] |}.

(** The messages [initializeFromSnapshots] rebuilds from one snapshot: the
    prompt, when it is a non-empty string, then the assistant's answer;
    [getTime] reads the timestamp of [created_at]. *)
Definition messagesOfSnapshot (getTime : jsstring -> Z)
  (snapshot : History.CodeSnapshot) : list ConversationMessage :=
  let t := getTime (History.created_at snapshot) in
  (match History.prompt snapshot with
   | Some (c :: cs) =>
       [ {| id := lit "user-" ++ History.id snapshot; role := user;
            content := c :: cs; timestamp := t;
            attachedImages := None; codeSnapshot := None;
            metadata := None; errorType := None; failedEdit := None |} ]
   | _ => []
   end)
  ++
  [ {| id := lit "assistant-" ++ History.id snapshot; role := assistant;
       content := match History.summary snapshot with
                  | Some (c :: cs) => c :: cs
                  | _ => lit "Generated animation"
                  end;
       timestamp := t;
       attachedImages := None;
       codeSnapshot := Some (History.code snapshot);
       metadata :=
         Some {| skills := match History.skills snapshot with
                           | Some ks => ks
                           | None => []
                           end;
                 editType := Generate.full_replacement;
                 edits := None |};
       errorType := None; failedEdit := None |} ].

Definition initializeFromSnapshots (getTime : jsstring -> Z) (h : Hook)
  (now : Z) (snapshots : list History.CodeSnapshot) : Hook :=
  {| state := {| messages := flat_map (messagesOfSnapshot getTime) snapshots;
                 hasManualEdits := false;
                 lastGenerationTimestamp := Some now;
                 pendingMessage := None |};
     lastAiCodeRef :=
       match at_index snapshots (History.len snapshots - 1) with
       | Some lastSnapshot => History.code lastSnapshot
       | None => lastAiCodeRef h
       end |}.

Definition setPendingMessage (h : Hook) (now : Z)
  (skills : option (list jsstring)) : Hook :=
  {| state := {| messages := messages (state h);
                 hasManualEdits := hasManualEdits (state h);
                 lastGenerationTimestamp :=
                   lastGenerationTimestamp (state h);
                 pendingMessage :=
                   Some {| pendingSkills := skills; startedAt := now |} |};
     lastAiCodeRef := lastAiCodeRef h |}.

Definition clearPendingMessage (h : Hook) : Hook :=
  {| state := {| messages := messages (state h);
                 hasManualEdits := hasManualEdits (state h);
                 lastGenerationTimestamp :=
                   lastGenerationTimestamp (state h);
                 pendingMessage := None |};
     lastAiCodeRef := lastAiCodeRef h |}.

(** The LLM-facing view of one kept message. *)
Definition contextOf (m : ConversationMessage) : ConversationContextMessage :=
  {| ctxRole := role m;
     ctxContent := if isUser (role m) then content m else GENERATED_CODE;
     ctxAttachedImages :=
       if isUser (role m) then
         match attachedImages m with
         | Some (i :: imgs) => Some (i :: imgs)
         | _ => None
         end
       else None |}.

Definition getFullContext (h : Hook) : list ConversationContextMessage :=
  map contextOf
      (filter (fun m => isUser (role m) || isAssistant (role m))
              (messages (state h))).

(** The operations of the hook that change it. *)
Inductive Op : Type :=
| AddUserMessage (now : Z) (content : jsstring)
    (attachedImages : option (list jsstring))
| AddAssistantMessage (now : Z) (content codeSnapshot : jsstring)
    (metadata : option AssistantMetadata)
| AddErrorMessage (now : Z) (content : jsstring) (errorType : ErrorType)
    (failedEdit : option Generate.EditOperation)
| MarkManualEdit (currentCode : jsstring)
| ClearConversation
| InitializeFromSnapshots (now : Z) (snapshots : list History.CodeSnapshot)
| SetPendingMessage (now : Z) (skills : option (list jsstring))
| ClearPendingMessage.

Definition step (getTime : jsstring -> Z) (h : Hook) (op : Op) : Hook :=
  match op with
  | AddUserMessage now c imgs => addUserMessage h now c imgs
  | AddAssistantMessage now c code md => addAssistantMessage h now c code md
  | AddErrorMessage now c t fe => addErrorMessage h now c t fe
  | MarkManualEdit code => markManualEdit h code
  | ClearConversation => clearConversation h
  | InitializeFromSnapshots now snaps =>
      initializeFromSnapshots getTime h now snaps
  | SetPendingMessage now ks => setPendingMessage h now ks
  | ClearPendingMessage => clearPendingMessage h
  end.

Definition run (getTime : jsstring -> Z) (ops : list Op) (h : Hook) : Hook :=
  fold_left (step getTime) ops h.

(** An operation that puts an assistant message into the log. *)
Definition recordsAssistant (op : Op) : bool :=
  match op with
  | AddAssistantMessage _ _ _ _ => true
  | InitializeFromSnapshots _ (_ :: _) => true
  | _ => false
  end.

(** [isFirstGeneration: state.messages.length === 0] *)
Definition isFirstGeneration (h : Hook) : bool :=
  match messages (state h) with
  | [] => true
  | _ :: _ => false
  end.

(** [Set.prototype.add] on a set of strings kept in insertion order. *)
Definition setAdd (s : jsstring) (set : list jsstring) : list jsstring :=
  if existsb (strEq s) set then set else set ++ [s].

(** [getPreviouslyUsedSkills]: the skills of the assistant messages,
    collected in a [Set] and returned in insertion order. *)
Definition getPreviouslyUsedSkills (h : Hook) : list jsstring :=
  fold_left
    (fun allSkills m =>
       if isAssistant (role m) then
         match metadata m with
         | Some md => fold_left (fun set skill => setAdd skill set)
                                (skills md) allSkills
         | None => allSkills
         end
       else allSkills)
    (messages (state h)) [].

(** [msg.role === "user" && msg.attachedImages &&
     msg.attachedImages.length > 0] *)
Definition carriesImages (msg : ConversationMessage) : bool :=
  isUser (role msg) &&
  match attachedImages msg with
  | Some (_ :: _) => true
  | _ => false
  end.

(** The [for] loop of [getLastUserAttachedImages], over the messages from
    the last one down. *)
Fixpoint scanAttachedImages (fromLast : list ConversationMessage)
  : option (list jsstring) :=
  match fromLast with
  | [] => None
  | msg :: earlier =>
      if carriesImages msg then attachedImages msg
      else scanAttachedImages earlier
  end.

Definition getLastUserAttachedImages (h : Hook) : option (list jsstring) :=
  scanAttachedImages (rev (messages (state h))).

(** The view of the ledger as the generation route receives it: the
    entries of [getFullContext], whose roles are [user] or [assistant]. *)
Definition toRequest (c : ConversationContextMessage)
  : Generate.ConversationContextMessage :=
  {| Generate.role := match ctxRole c with
                      | user => Generate.user
                      | _ => Generate.assistant
                      end;
     Generate.content := ctxContent c;
     Generate.attachedImages := ctxAttachedImages c |}.

End Conversation.

(** ** The landing page *)

Module Landing.

(** [formatRelativeDate], as a function of [diff = now.getTime() -
    date.getTime()] in milliseconds ([None] for [NaN], the difference to an
    invalid date) and of the text [date.toLocaleDateString()] gives.  Time
    values are integers, and [Math.floor(diff / d)] is the integer floor of
    the quotient for every difference of two time values below 2^53. *)
Definition formatRelativeDate (localeDate : jsstring) (diff : option Z)
  : jsstring :=
  match diff with
  | None => localeDate
  | Some diff =>
      let mins := (diff / 60000)%Z in
      let hours := (diff / 3600000)%Z in
      let days := (diff / 86400000)%Z in
      if (mins <? 1)%Z then lit "Just now"
      else if (mins <? 60)%Z then numberToString mins ++ lit "m ago"
      else if (hours <? 24)%Z then numberToString hours ++ lit "h ago"
      else if (days <? 7)%Z then numberToString days ++ lit "d ago"
      else localeDate
  end.

End Landing.

(** ** Notions the statements below use *)

Module Spec.

(** The number of offsets of [s] at which [p] occurs. *)
Fixpoint occurrences (s p : jsstring) : nat :=
  (if startsWith s p then 1 else 0) +
  match s with
  | [] => 0
  | _ :: s' => occurrences s' p
  end.

(** The number of occurrences of [p] in [s] found from left to right when
    the search resumes after each occurrence; [skip] code units are passed
    over first. *)
Fixpoint disjointOccurrences (p : jsstring) (skip : nat) (s : jsstring)
  : nat :=
  match s with
  | [] => 0
  | _ :: s' =>
      match skip with
      | S k => disjointOccurrences p k s'
      | O =>
          if startsWith s p
          then S (disjointOccurrences p (length p - 1) s')
          else disjointOccurrences p 0 s'
      end
  end.

(** The text has no [$] in it. *)
Definition dollarFree (t : jsstring) : Prop := ~ In DOLLAR t.

(** [applyEdits] replaced the single occurrence of the edit's [old_string]
    by its [new_string] and left the rest as it was. *)
Definition replacedLiterally (code : jsstring) (e : Generate.EditOperation)
  (r : Generate.ApplyResult) : Prop :=
  Generate.success r = true /\
  exists before after,
    code = before ++ Generate.old_string e ++ after /\
    Generate.result r = before ++ Generate.new_string e ++ after.

(** Two edits agree on what the model sent: description, [old_string] and
    [new_string]. *)
Definition sameEdit (a b : Generate.EditOperation) : Prop :=
  Generate.description a = Generate.description b /\
  Generate.old_string a = Generate.old_string b /\
  Generate.new_string a = Generate.new_string b.

(** The edit carries a line number, and it is at least 1. *)
Definition hasLine (e : Generate.EditOperation) : Prop :=
  exists n, Generate.lineNumber e = Some n /\ (1 <= n)%Z.

(** A user message with at least one attached image. *)
Definition userWithImages (m : Conversation.ConversationMessage)
  (imgs : list jsstring) : Prop :=
  Conversation.role m = Conversation.user /\
  Conversation.attachedImages m = Some imgs /\ imgs <> [].

(** What is said of [undo()] and [redo()] in state [st]: at a cursor
    [<= 0] [undo] returns nothing and leaves the state as it is, and so does
    [redo] at a cursor [>= length - 1]; otherwise the call moves the cursor
    by one, keeps the snapshots, and returns the code of the snapshot under
    the new cursor. *)
Definition undoRedoAsStated (st : History.State) : Prop :=
  ((History.currentIndex st <= 0)%Z ->
     SessionHistory.undo st = (st, History.Returns None)) /\
  ((History.currentIndex st
      >= History.len (History.snapshots st) - 1)%Z ->
     SessionHistory.redo st = (st, History.Returns None)) /\
  ((0 < History.currentIndex st)%Z ->
     exists s,
       at_index (History.snapshots st) (History.currentIndex st - 1)
         = Some s /\
       History.currentIndex (fst (SessionHistory.undo st))
         = (History.currentIndex st - 1)%Z /\
       History.snapshots (fst (SessionHistory.undo st))
         = History.snapshots st /\
       snd (SessionHistory.undo st)
         = History.Returns (Some (History.code s))) /\
  ((History.currentIndex st
      < History.len (History.snapshots st) - 1)%Z ->
     exists s,
       at_index (History.snapshots st) (History.currentIndex st + 1)
         = Some s /\
       History.currentIndex (fst (SessionHistory.redo st))
         = (History.currentIndex st + 1)%Z /\
       History.snapshots (fst (SessionHistory.redo st))
         = History.snapshots st /\
       snd (SessionHistory.redo st)
         = History.Returns (Some (History.code s))).

End Spec.

(** ** Sample data *)

Module Sample.
Import History.

Definition sid : jsstring := lit "session-1".

Definition snap (i : string) (n : Z) (c : string) : CodeSnapshot :=
  {| id := lit i; session_id := sid; code := lit c;
     prompt := Some (lit "make it blue"); summary := Some (lit "done");
     skills := Some []; sequence_number := n; created_at := lit "2026" |}.

Definition snapA : CodeSnapshot := snap "id-a" 0 "v0".
Definition snapB : CodeSnapshot := snap "id-b" 1 "v1".
Definition snapC : CodeSnapshot := snap "id-c" 2 "v2".
Definition snapD : CodeSnapshot := snap "id-d" 2 "v3".

Definition stored (s : CodeSnapshot) : Reply CodeSnapshot :=
  {| data := Some s; error := None |}.

Definition rows (l : list CodeSnapshot) : Reply (list CodeSnapshot) :=
  {| data := Some l; error := None |}.

Definition refused : Reply CodeSnapshot :=
  {| data := None; error := Some (lit "insert failed") |}.

Definition save (st : State) (s : CodeSnapshot) : State :=
  fst (saveWith sid st (code s) (lit "make it blue") (lit "done") []
         (stored s)).

(** The history after one save, and after three. *)
Definition one : State := save initial snapA.
Definition three : State := save (save one snapB) snapC.

(** The hook after a session with two snapshots was loaded and the page
    then moved to a session without any. *)
Definition movedToEmptySession : SessionHistory.Hook :=
  SessionHistory.run
    [ SessionHistory.Load (lit "session-1") (rows [snapA; snapB]);
      SessionHistory.Load (lit "session-2") (rows []) ]
    SessionHistory.mounted.

End Sample.

(* ================================================================== *)
(** * Part II: theorems                                                *)
(* ================================================================== *)

Import Spec.

(** ** Strings *)

Section StringFacts.

Lemma strEq_eq (a b : jsstring) : strEq a b = true <-> a = b.
Proof.
  revert b; induction a as [|x a IH]; intros [|y b]; simpl;
    split; intro H; try reflexivity; try discriminate.
  - apply andb_true_iff in H as [Hxy Hab].
    apply N.eqb_eq in Hxy. apply IH in Hab. now subst.
  - injection H as -> ->. rewrite N.eqb_refl. now apply IH.
Qed.

Lemma startsWith_app (p t : jsstring) : startsWith (p ++ t) p = true.
Proof.
  induction p as [|a p IH]; simpl; [reflexivity|].
  now rewrite N.eqb_refl, IH.
Qed.

Lemma startsWith_inv (s p : jsstring) :
  startsWith s p = true -> s = p ++ skipn (length p) s.
Proof.
  revert s; induction p as [|a p IH]; intros s H; simpl in *.
  - reflexivity.
  - destruct s as [|b s]; [discriminate|].
    apply andb_true_iff in H as [Hab Hs].
    apply N.eqb_eq in Hab; subst b.
    simpl; f_equal; now apply IH.
Qed.

Lemma startsWith_nil_l (p : jsstring) : p <> [] -> startsWith [] p = false.
Proof. destruct p; [congruence | reflexivity]. Qed.

Lemma indexOf_cons (a : codeunit) (s p : jsstring) :
  indexOf (a :: s) p =
  if startsWith (a :: s) p then Some 0%nat else option_map S (indexOf s p).
Proof. reflexivity. Qed.

(** The offset [indexOf] returns splits the string around an occurrence. *)
Lemma indexOf_Some_split (s p : jsstring) (j : nat) :
  indexOf s p = Some j ->
  s = firstn j s ++ p ++ skipn (j + length p) s.
Proof.
  revert j; induction s as [|a s IH]; intros j H.
  - simpl in H. destruct (startsWith [] p) eqn:E; [|discriminate].
    injection H as <-. simpl. now apply startsWith_inv in E.
  - rewrite indexOf_cons in H.
    destruct (startsWith (a :: s) p) eqn:E.
    + injection H as <-. simpl firstn. simpl app at 1.
      now apply startsWith_inv in E.
    + destruct (indexOf s p) as [j'|] eqn:E'; [|discriminate].
      injection H as <-. simpl. f_equal. now apply IH.
Qed.

Lemma startsWith_length (s p : jsstring) :
  startsWith s p = true -> (length p <= length s)%nat.
Proof.
  intro H. apply startsWith_inv in H.
  apply (f_equal (@length codeunit)) in H. rewrite length_app in H. lia.
Qed.

Lemma indexOf_Some_bound (s p : jsstring) (j : nat) :
  indexOf s p = Some j -> (j + length p <= length s)%nat.
Proof.
  revert j; induction s as [|a s IH]; intros j H.
  - simpl in H. destruct (startsWith [] p) eqn:E; [|discriminate].
    injection H as <-. now apply startsWith_length in E.
  - rewrite indexOf_cons in H.
    destruct (startsWith (a :: s) p) eqn:E.
    + injection H as <-. now apply startsWith_length in E.
    + destruct (indexOf s p) as [j'|] eqn:E'; [|discriminate].
      injection H as <-. specialize (IH j' eq_refl). simpl. lia.
Qed.

Lemma indexOf_None_occurrences (s p : jsstring) :
  indexOf s p = None <-> occurrences s p = 0%nat.
Proof.
  induction s as [|a s IH].
  - simpl. destruct (startsWith [] p); split; intro H;
      try discriminate; reflexivity.
  - rewrite indexOf_cons. cbn [occurrences].
    destruct (startsWith (a :: s) p).
    + split; intro H; discriminate.
    + destruct (indexOf s p) eqn:E; simpl; split; intro H;
        try discriminate; try reflexivity.
      * apply IH in H. discriminate.
      * now apply IH.
Qed.

Lemma includes_occurrences (s p : jsstring) :
  includes s p = true <-> (0 < occurrences s p)%nat.
Proof.
  unfold includes. pose proof (indexOf_None_occurrences s p) as [H1 H2].
  destruct (indexOf s p); split; intro H; try reflexivity; try discriminate.
  - destruct (occurrences s p); [|lia]. now specialize (H2 eq_refl).
  - rewrite H1 in H by reflexivity. lia.
Qed.

Lemma occurrences_nil_r (s : jsstring) : occurrences s [] = S (length s).
Proof. induction s as [|a s IH]; simpl; [reflexivity | now rewrite IH]. Qed.

(** *** Counting by [split] *)

Lemma disjoint_skip (p : jsstring) (k : nat) (s : jsstring) :
  disjointOccurrences p k s = disjointOccurrences p 0 (skipn k s).
Proof.
  revert k; induction s as [|a s IH]; intros [|k]; simpl; auto.
Qed.

Lemma disjoint_indexOf_None (p s : jsstring) :
  indexOf s p = None -> disjointOccurrences p 0 s = 0%nat.
Proof.
  induction s as [|a s IH]; intro H; [reflexivity|].
  rewrite indexOf_cons in H. cbn [disjointOccurrences].
  destruct (startsWith (a :: s) p); [discriminate|].
  apply IH. destruct (indexOf s p); [discriminate | reflexivity].
Qed.

Lemma disjoint_indexOf_Some (p s : jsstring) (j : nat) :
  p <> [] -> indexOf s p = Some j ->
  disjointOccurrences p 0 s =
  S (disjointOccurrences p 0 (skipn (j + length p) s)).
Proof.
  intros Hp. revert j; induction s as [|a s IH]; intros j H.
  - simpl in H. now rewrite startsWith_nil_l in H.
  - rewrite indexOf_cons in H. cbn [disjointOccurrences].
    destruct (startsWith (a :: s) p).
    + injection H as <-. rewrite disjoint_skip. f_equal. f_equal.
      destruct p as [|b p]; [congruence|]. simpl. now rewrite Nat.sub_0_r.
    + destruct (indexOf s p) as [j'|]; [|discriminate].
      injection H as <-. now rewrite (IH j' eq_refl).
Qed.

Lemma disjoint_le_occurrences (p : jsstring) (k : nat) (s : jsstring) :
  (disjointOccurrences p k s <= occurrences s p)%nat.
Proof.
  revert k; induction s as [|a s IH]; intros k; [simpl; lia|].
  cbn [disjointOccurrences occurrences].
  destruct k as [|k].
  - destruct (startsWith (a :: s) p).
    + specialize (IH (length p - 1)%nat). lia.
    + specialize (IH 0%nat). lia.
  - specialize (IH k). lia.
Qed.

Lemma splitLoop_length (p : jsstring) (fuel : nat) (s : jsstring) :
  p <> [] -> (length s <= fuel)%nat ->
  length (splitLoop fuel s p) = S (disjointOccurrences p 0 s).
Proof.
  intros Hp. revert s; induction fuel as [|fuel IH]; intros s Hlen.
  - destruct s; [reflexivity | simpl in Hlen; lia].
  - simpl. destruct (indexOf s p) as [j|] eqn:E.
    + simpl. rewrite IH.
      * now rewrite (disjoint_indexOf_Some p s j Hp E).
      * rewrite length_skipn. destruct p; [congruence|]. simpl. lia.
    + simpl. now rewrite disjoint_indexOf_None.
Qed.

(** For a non-empty separator, [split] yields one piece more than there
    are disjoint occurrences of the separator. *)
Lemma split_length (s p : jsstring) :
  p <> [] -> length (split s p) = S (disjointOccurrences p 0 s).
Proof.
  intros Hp. unfold split. destruct p as [|b p]; [congruence|].
  destruct s as [|a s]; [reflexivity|].
  now apply splitLoop_length.
Qed.

Lemma split_nil_length (s : jsstring) : length (split s []) = length s.
Proof. unfold split. now rewrite length_map. Qed.

(** *** Substitution templates *)

Lemma getSubstitution_dollarFree (matched str : jsstring) (position : nat)
  (t : jsstring) :
  dollarFree t -> getSubstitution matched str position t = t.
Proof.
  unfold dollarFree. induction t as [|c t IH]; intro H; [reflexivity|].
  cbn [getSubstitution].
  destruct (N.eqb c DOLLAR) eqn:E.
  - apply N.eqb_eq in E. exfalso. apply H. now left.
  - f_equal. apply IH. intro Hin. apply H. now right.
Qed.

Lemma replace_literal (s p n : jsstring) (j : nat) :
  indexOf s p = Some j -> dollarFree n ->
  replace s p n = firstn j s ++ n ++ skipn (j + length p) s.
Proof.
  intros H Hn. unfold replace. rewrite H.
  now rewrite getSubstitution_dollarFree.
Qed.

End StringFacts.

(** ** PatchEngine: [applyEdits] *)

Import Generate.

Section ApplyEdits.

(** *** Line numbers *)

Lemma disjoint_single (c : codeunit) (t : jsstring) :
  disjointOccurrences [c] 0 t = length (filter (N.eqb c) t).
Proof.
  induction t as [|a t IH]; [reflexivity|].
  cbn [disjointOccurrences startsWith filter length Nat.sub].
  rewrite andb_true_r.
  destruct (N.eqb c a); cbn [length]; now rewrite IH.
Qed.

(** X7: the line number of a match is one more than the number of line feeds
    before its first code unit. *)
Lemma getLineNumber_newlines (code s : jsstring) (j : nat) :
  indexOf code s = Some j ->
  getLineNumber code s
  = Z.of_nat (S (length (filter (N.eqb LF) (firstn j code)))).
Proof.
  intros H. unfold getLineNumber, substring. rewrite H.
  rewrite Nat.sub_0_r. simpl skipn.
  rewrite split_length by discriminate.
  now rewrite disjoint_single.
Qed.

(** A failed call returns the original code, whatever was applied before
    the failing edit. *)
Lemma applyLoop_failure_code (code : jsstring) (edits : list EditOperation) :
  forall i buf enr,
    success (applyLoop code i buf enr edits) = false ->
    result (applyLoop code i buf enr edits) = code.
Proof.
  induction edits as [|e rest IH]; intros i buf enr H; simpl in *.
  - discriminate.
  - destruct (negb (includes buf (old_string e))); [reflexivity|].
    destruct (1 <? countMatches buf (old_string e))%Z; [reflexivity|].
    now apply IH.
Qed.

(** The loop over [done ++ rest] continues, after the edits of [done] went
    through, on their result with the next index. *)
Lemma applyLoop_app (code : jsstring) (done rest : list EditOperation) :
  forall i buf enr,
    success (applyLoop code i buf enr done) = true ->
    applyLoop code i buf enr (done ++ rest) =
    applyLoop code (i + length done)
      (result (applyLoop code i buf enr done))
      (enrichedOf (applyLoop code i buf enr done)) rest.
Proof.
  induction done as [|e done IH]; intros i buf enr H; simpl in *.
  - now rewrite Nat.add_0_r.
  - destruct (negb (includes buf (old_string e))); [discriminate|].
    destruct (1 <? countMatches buf (old_string e))%Z; [discriminate|].
    rewrite IH by assumption. now rewrite Nat.add_succ_r.
Qed.

(** X4: an edit whose [old_string] is absent from the current buffer stops
    the call: not-found message with the 1-based index, the edit itself,
    and the original code. *)
Lemma applyEdits_not_found (code : jsstring) (done rest : list EditOperation)
  (e : EditOperation) :
  success (applyEdits code done) = true ->
  occurrences (result (applyEdits code done)) (old_string e) = 0%nat ->
  applyEdits code (done ++ e :: rest) =
  {| success := false; result := code;
     error := Some (notFoundMessage (length done));
     enrichedEdits := None; failedEdit := Some e |}.
Proof.
  intros Hok Hocc. unfold applyEdits in *.
  rewrite applyLoop_app by assumption. simpl.
  apply indexOf_None_occurrences in Hocc.
  unfold includes. now rewrite Hocc.
Qed.

(** X5: an edit whose non-empty [old_string] has more than one disjoint
    occurrence in the current buffer stops the call: ambiguity message with
    the 1-based index and that count, the edit itself, and the original
    code. *)
Lemma applyEdits_ambiguous (code : jsstring) (done rest : list EditOperation)
  (e : EditOperation) :
  success (applyEdits code done) = true ->
  old_string e <> [] ->
  (1 < disjointOccurrences (old_string e) 0 (result (applyEdits code done)))%nat ->
  applyEdits code (done ++ e :: rest) =
  {| success := false; result := code;
     error := Some (ambiguousMessage (length done)
                      (Z.of_nat (disjointOccurrences (old_string e) 0
                                   (result (applyEdits code done)))));
     enrichedEdits := None; failedEdit := Some e |}.
Proof.
  intros Hok Hne Hocc. unfold applyEdits in *.
  rewrite applyLoop_app by assumption. simpl.
  set (buf := result (applyLoop code 0 code [] done)) in *.
  assert (Hinc : includes buf (old_string e) = true).
  { apply includes_occurrences.
    pose proof (disjoint_le_occurrences (old_string e) 0 buf). lia. }
  rewrite Hinc. simpl.
  assert (Hcount : countMatches buf (old_string e) =
                   Z.of_nat (disjointOccurrences (old_string e) 0 buf)).
  { unfold countMatches. rewrite split_length by assumption. lia. }
  rewrite Hcount.
  destruct (Z.ltb_spec 1 (Z.of_nat (disjointOccurrences (old_string e) 0 buf)));
    [reflexivity | lia].
Qed.

(** With exactly one occurrence the count taken by [split] is at most 1. *)
Lemma countMatches_unique (buf old : jsstring) :
  occurrences buf old = 1%nat -> (countMatches buf old <= 1)%Z.
Proof.
  intro H. unfold countMatches. destruct old as [|b old].
  - rewrite occurrences_nil_r in H. rewrite split_nil_length. lia.
  - rewrite split_length by discriminate.
    pose proof (disjoint_le_occurrences (b :: old) 0 buf). lia.
Qed.

(** A single edit whose [old_string] occurs exactly once goes through, and
    the occurrence is replaced by [new_string] expanded as a substitution
    template. *)
Lemma applyEdits_single_template (code : jsstring) (e : EditOperation) :
  occurrences code (old_string e) = 1%nat ->
  success (applyEdits code [e]) = true /\
  exists before after,
    code = before ++ old_string e ++ after /\
    result (applyEdits code [e]) =
    before ++ getSubstitution (old_string e) code (length before)
                (new_string e) ++ after.
Proof.
  intros Hocc. unfold applyEdits. simpl.
  assert (Hinc : includes code (old_string e) = true).
  { apply includes_occurrences. lia. }
  rewrite Hinc. simpl.
  pose proof (countMatches_unique code (old_string e) Hocc) as Hc.
  destruct (Z.ltb_spec 1 (countMatches code (old_string e))); [lia|].
  simpl. split; [reflexivity|].
  unfold includes in Hinc. unfold replace.
  destruct (indexOf code (old_string e)) as [j|] eqn:E; [|discriminate].
  exists (firstn j code), (skipn (j + length (old_string e)) code).
  pose proof (indexOf_Some_split code (old_string e) j E) as Hsplit.
  split; [exact Hsplit|].
  assert (Hj : length (firstn j code) = j).
  { pose proof (indexOf_Some_bound code (old_string e) j E).
    rewrite length_firstn. lia. }
  now rewrite Hj.
Qed.

(** X6: a single edit whose [old_string] occurs exactly once and whose
    [new_string] has no [$] in it is applied literally. *)
Lemma applyEdits_single_literal (code : jsstring) (e : EditOperation) :
  occurrences code (old_string e) = 1%nat ->
  dollarFree (new_string e) ->
  replacedLiterally code e (applyEdits code [e]).
Proof.
  intros Hocc Hfree.
  destruct (applyEdits_single_template code e Hocc)
    as (Hok & before & after & Hcode & Hres).
  split; [exact Hok|]. exists before, after. split; [exact Hcode|].
  now rewrite Hres, getSubstitution_dollarFree.
Qed.

(** C1, at an input where it fails: the edit's [old_string] occurs once,
    its [new_string] contains the two code units [$$] (a template literal
    that prints a dollar sign before the price); [applyEdits] reports
    success, but the buffer it returns has a single [$] there, so it is not
    the buffer with [old_string] replaced by [new_string]. *)
Theorem applyEdits_dollar_pattern :
  let code := lit "<div>{label}</div>" in
  let e := {| description := lit "show the price";
              old_string := lit "{label}";
              new_string := lit "{`$${price}`}";
              lineNumber := None |} in
  occurrences code (old_string e) = 1%nat /\
  success (applyEdits code [e]) = true /\
  result (applyEdits code [e]) = lit "<div>{`${price}`}</div>" /\
  ~ replacedLiterally code e (applyEdits code [e]).
Proof.
  cbv zeta. repeat split; try (vm_compute; reflexivity).
  intros [_ (before & after & Hcode & Hres)].
  apply (f_equal (@length codeunit)) in Hcode, Hres.
  rewrite !length_app in Hcode, Hres.
  cbn in Hcode, Hres. lia.
Qed.

(** C3, at two inputs where it fails.  [aa] occurs in [aaa] at offsets 0
    and 1, but [split] counts one match, so [applyEdits] reports no
    ambiguity: it replaces the occurrence at offset 0 and succeeds.  The
    empty [old_string] occurs at each of the three offsets of [ab]; there
    too [split] counts one match, and the edit goes through, putting
    [new_string] in front. *)
Theorem applyEdits_ambiguity_missed :
  let overlapping := {| description := lit "shorten";
                        old_string := lit "aa";
                        new_string := lit "b";
                        lineNumber := None |} in
  let empty := {| description := lit "insert"; old_string := [];
                  new_string := lit "X"; lineNumber := None |} in
  (occurrences (lit "aaa") (old_string overlapping) = 2%nat /\
   countMatches (lit "aaa") (old_string overlapping) = 1%Z /\
   applyEdits (lit "aaa") [overlapping] =
   {| success := true; result := lit "ba"; error := None;
      enrichedEdits :=
        Some [ {| description := lit "shorten"; old_string := lit "aa";
                  new_string := lit "b"; lineNumber := Some 1%Z |} ];
      failedEdit := None |}) /\
  (occurrences (lit "ab") (old_string empty) = 3%nat /\
   countMatches (lit "ab") (old_string empty) = 1%Z /\
   success (applyEdits (lit "ab") [empty]) = true /\
   result (applyEdits (lit "ab") [empty]) = lit "Xab").
Proof. cbv zeta. repeat split; vm_compute; reflexivity. Qed.

(** Edits are applied to the output of the edits before them. *)
Lemma applyEdits_sequential :
  let e1 := {| description := lit "first"; old_string := lit "red";
               new_string := lit "green"; lineNumber := None |} in
  let e2 := {| description := lit "second"; old_string := lit "green";
               new_string := lit "blue"; lineNumber := None |} in
  success (applyEdits (lit "color: red") [e1; e2]) = true /\
  result (applyEdits (lit "color: red") [e1; e2]) = lit "color: blue".
Proof. cbv zeta. split; vm_compute; reflexivity. Qed.

End ApplyEdits.

(** ** EditDecisionProtocol: the follow-up decision *)

Section FollowUp.

(** A decision without its payload (edits null for [edit]; code null or
    empty for [full]) is answered with the invalid-response error. *)
Lemma followUpDecision_missing_payload (currentCode : jsstring)
  (response : FollowUpResponse) (detectedSkills : list jsstring)
  (modelName : jsstring) :
  (type response = edit /\ edits response = None) \/
  (type response = full /\ truthyString (code response) = false) ->
  followUpDecision currentCode response detectedSkills modelName
  = invalidResponse.
Proof.
  unfold followUpDecision.
  intros [[Ht He] | [Ht Hc]]; rewrite Ht.
  - now rewrite He.
  - destruct (code response) as [[|c cs]|]; simpl in Hc;
      try discriminate; now destruct (edits response).
Qed.

(** C2, at the input where it fails: an [edit] decision whose edit list is
    empty is not rejected.  [applyEdits] has nothing to do and succeeds, and
    the turn is answered 200 with the current code unchanged. *)
Theorem followUpDecision_empty_edits (currentCode summary : jsstring)
  (nullableCode : option jsstring) (detectedSkills : list jsstring)
  (modelName : jsstring) :
  let response := {| type := edit; summary := summary; edits := Some [];
                     code := nullableCode |} in
  followUpDecision currentCode response detectedSkills modelName
  = Json200 currentCode summary detectedSkills tool_edit (Some []) modelName
  /\ succeeded
       (followUpDecision currentCode response detectedSkills modelName)
     = true.
Proof. cbv zeta. split; reflexivity. Qed.

End FollowUp.

(** ** SnapshotStore: the history hooks *)

Import History.

Section HistoryFacts.

Lemma slice_prefix {A : Type} (l : list A) (k : Z) :
  (0 <= k <= len l)%Z -> slice l 0 k = firstn (Z.to_nat k) l.
Proof.
  unfold slice, relativeIndex, len. intros Hk.
  change (0 <? 0)%Z with false. cbv iota.
  destruct (Z.ltb_spec k 0); [lia|].
  rewrite (Z.min_l 0) by lia. rewrite (Z.min_l k) by lia.
  rewrite Z.sub_0_r, Z.max_l by lia. reflexivity.
Qed.

Lemma sliceFrom_suffix {A : Type} (l : list A) (k : Z) :
  (0 <= k <= len l)%Z -> sliceFrom l k = skipn (Z.to_nat k) l.
Proof.
  unfold sliceFrom, slice, relativeIndex, len. intros Hk.
  destruct (Z.ltb_spec k 0); [lia|].
  destruct (Z.ltb_spec (Z.of_nat (length l)) 0); [lia|].
  rewrite (Z.min_l k) by lia. rewrite Z.min_id.
  apply firstn_all2. rewrite length_skipn. lia.
Qed.

Lemma activeSnapshots_prefix (st : State) :
  cursorInvariant st ->
  activeSnapshots st = firstn (Z.to_nat (currentIndex st + 1)) (snapshots st).
Proof.
  unfold cursorInvariant, activeSnapshots. intros H.
  apply slice_prefix. lia.
Qed.

Lemma activeSnapshots_len (st : State) :
  cursorInvariant st -> len (activeSnapshots st) = (currentIndex st + 1)%Z.
Proof.
  intros H. rewrite activeSnapshots_prefix by assumption.
  unfold cursorInvariant, len in *. rewrite length_firstn. lia.
Qed.

Lemma redoTail_suffix (st : State) :
  cursorInvariant st ->
  redoTail st = skipn (Z.to_nat (currentIndex st + 1)) (snapshots st).
Proof.
  unfold cursorInvariant, redoTail. intros H.
  apply sliceFrom_suffix. lia.
Qed.

Lemma fst_undo (st : State) :
  fst (undo st) =
  if (currentIndex st <=? 0)%Z then st
  else setCurrentIndex (currentIndex st - 1) st.
Proof.
  unfold undo. destruct (currentIndex st <=? 0)%Z; [reflexivity|].
  now destruct (at_index (snapshots st) (currentIndex st - 1)).
Qed.

Lemma fst_redo (st : State) :
  fst (redo st) =
  if (len (snapshots st) - 1 <=? currentIndex st)%Z then st
  else setCurrentIndex (currentIndex st + 1) st.
Proof.
  unfold redo. destruct (len (snapshots st) - 1 <=? currentIndex st)%Z;
    [reflexivity|].
  now destruct (at_index (snapshots st) (currentIndex st + 1)).
Qed.

Lemma saveWith_failed (sid : jsstring) (st : State) (c p s : jsstring)
  (k : list jsstring) (reply : Reply CodeSnapshot) :
  failed reply = true ->
  saveWith sid st c p s k reply = (st, [Insert (insertRow sid st c p s k)]).
Proof.
  intros Hf. unfold saveWith. now rewrite Hf.
Qed.

Lemma saveWith_stored (sid : jsstring) (st : State) (c p s : jsstring)
  (k : list jsstring) (reply : Reply CodeSnapshot) (stored : CodeSnapshot) :
  error reply = None -> data reply = Some stored ->
  fst (saveWith sid st c p s k reply) =
  {| snapshots := activeSnapshots st ++ [stored];
     currentIndex := len (activeSnapshots st ++ [stored]) - 1;
     isLoaded := isLoaded st |}.
Proof.
  intros He Hd. unfold saveWith, failed. now rewrite He, Hd.
Qed.

Lemma at_index_in_range {A : Type} (l : list A) (i : Z) :
  (0 <= i < len l)%Z -> exists x, at_index l i = Some x.
Proof.
  unfold at_index, len. intros H.
  destruct (Z.ltb_spec i 0); [lia|].
  destruct (nth_error l (Z.to_nat i)) eqn:E; [eauto|].
  apply nth_error_None in E. lia.
Qed.

(** *** The invariants of reachable histories *)

Lemma firstn_seq (n start k : nat) :
  firstn n (seq start k) = seq start (Nat.min n k).
Proof.
  revert start k; induction n as [|n IH]; intros start [|k]; simpl; auto.
  now rewrite IH.
Qed.

Lemma denseFrom_firstn (n : nat) (l : list CodeSnapshot) :
  denseFrom 0 l -> denseFrom 0 (firstn n l).
Proof.
  unfold denseFrom. intros H.
  rewrite <- firstn_map, H, firstn_map, firstn_seq, length_firstn.
  reflexivity.
Qed.

Lemma denseFrom_snoc (l : list CodeSnapshot) (x : CodeSnapshot) :
  denseFrom 0 l -> sequence_number x = len l -> denseFrom 0 (l ++ [x]).
Proof.
  unfold denseFrom, len. intros H Hx.
  rewrite map_app, H, length_app, Nat.add_1_r, seq_S, map_app.
  simpl. now rewrite Hx.
Qed.

Lemma wellFormed_initial : wellFormed initial.
Proof.
  unfold wellFormed, cursorInvariant, emptyIffMinusOne, denseFrom, len.
  simpl. repeat split; try lia; try constructor.
Qed.

Lemma wellFormed_save (sid : jsstring) (st : State) (c p s : jsstring)
  (k : list jsstring) (reply : Reply CodeSnapshot) (stored : CodeSnapshot) :
  wellFormed st ->
  error reply = None -> data reply = Some stored ->
  storedAs (insertRow sid st c p s k) stored ->
  ~ In (id stored) (map id (snapshots st)) ->
  wellFormed (fst (saveWith sid st c p s k reply)).
Proof.
  intros (Hc & He & Hn & Hd) Herr Hdata (_ & _ & Hseq) Hfresh.
  rewrite (saveWith_stored sid st c p s k reply stored Herr Hdata).
  pose proof (activeSnapshots_len st Hc) as Hlen.
  rewrite (activeSnapshots_prefix st Hc) in *.
  set (n := Z.to_nat (currentIndex st + 1)) in *.
  unfold wellFormed, cursorInvariant, emptyIffMinusOne. simpl.
  assert (Hl : len (firstn n (snapshots st) ++ [stored])
               = (currentIndex st + 2)%Z).
  { unfold len in *. rewrite length_app. simpl. lia. }
  unfold cursorInvariant in Hc. repeat split.
  - lia.
  - lia.
  - intro H. lia.
  - intro H. apply (f_equal (@length _)) in H.
    rewrite length_app in H. simpl in H. lia.
  - rewrite map_app. simpl. apply NoDup_app.
    + rewrite <- firstn_map.
      rewrite <- (firstn_skipn n (map id (snapshots st))) in Hn.
      now apply NoDup_app_remove_r in Hn.
    + repeat constructor. intros [].
    + intros x Hx [<-|[]]. apply Hfresh.
      apply in_map_iff in Hx as (y & <- & Hy). apply in_map.
      rewrite <- (firstn_skipn n (snapshots st)). apply in_or_app. now left.
  - apply denseFrom_snoc; [now apply denseFrom_firstn|].
    rewrite Hseq. simpl. now rewrite (activeSnapshots_prefix st Hc).
Qed.

Lemma wellFormed_undo (st : State) :
  wellFormed st -> wellFormed (fst (undo st)).
Proof.
  intros (Hc & He & Hn & Hd). rewrite fst_undo.
  destruct (Z.leb_spec (currentIndex st) 0); [unfold wellFormed; auto|].
  unfold wellFormed, cursorInvariant, emptyIffMinusOne in *. simpl.
  repeat split; try lia; try assumption.
  intro H0. rewrite H0 in Hc. unfold len in Hc. simpl in Hc. lia.
Qed.

Lemma wellFormed_redo (st : State) :
  wellFormed st -> wellFormed (fst (redo st)).
Proof.
  intros (Hc & He & Hn & Hd). rewrite fst_redo.
  destruct (Z.leb_spec (len (snapshots st) - 1) (currentIndex st));
    [unfold wellFormed; auto|].
  unfold wellFormed, cursorInvariant, emptyIffMinusOne in *. simpl.
  repeat split; try lia; try assumption.
  intro H0. rewrite H0 in H. unfold len in H. simpl in H. lia.
Qed.

(** Every reachable history is well formed. *)
Lemma reachable_wellFormed (st : State) : reachable st -> wellFormed st.
Proof.
  induction 1.
  - apply wellFormed_initial.
  - now rewrite saveWith_failed.
  - eapply wellFormed_save; eassumption.
  - now apply wellFormed_undo.
  - now apply wellFormed_redo.
Qed.

End HistoryFacts.

(** *** Undo, redo and save *)

Section HistoryTheorems.

Lemma NoDup_app_disjoint {A : Type} (l1 l2 : list A) (a : A) :
  NoDup (l1 ++ l2) -> In a l1 -> In a l2 -> False.
Proof.
  induction l1 as [|b l1 IH]; simpl; intros Hn H1 H2; [contradiction|].
  inversion Hn as [|? ? Hb Hn']; subst.
  destruct H1 as [<-|H1].
  - apply Hb. apply in_or_app. now right.
  - now apply IH.
Qed.

(** C9 as stated fails outside the cursor invariant: in the state the hook
    is in after moving from a session with two snapshots to one without any
    (no snapshots, cursor 1), the cursor is above 0, and [undo] moves it to 0
    and throws on the missing snapshot instead of returning a code. *)
Lemma undo_at_stale_cursor :
  snapshots (SessionHistory.state Sample.movedToEmptySession) = [] /\
  currentIndex (SessionHistory.state Sample.movedToEmptySession) = 1%Z /\
  currentIndex
    (fst (SessionHistory.undo
            (SessionHistory.state Sample.movedToEmptySession))) = 0%Z /\
  snd (SessionHistory.undo
         (SessionHistory.state Sample.movedToEmptySession)) = Throws /\
  ~ undoRedoAsStated (SessionHistory.state Sample.movedToEmptySession).
Proof.
  repeat (split; [reflexivity|]).
  intros (_ & _ & Hundo & _).
  destruct Hundo as (s & Hs & _); [reflexivity|].
  vm_compute in Hs. discriminate.
Qed.

(** C9, amended: in every history state that satisfies the cursor invariant
    [-1 <= currentIndex < length], [undo] at a cursor [<= 0] and [redo] at a
    cursor [>= length - 1] return [null] and leave the state as it is;
    otherwise they move the cursor by one, keep the snapshots, and return
    the code of the snapshot under the new cursor. *)
Theorem undo_redo_cursor (st : State) :
  cursorInvariant st -> undoRedoAsStated st.
Proof.
  unfold cursorInvariant, undoRedoAsStated, SessionHistory.undo,
    SessionHistory.redo, undo, redo.
  intros Hc. split; [|split; [|split]].
  - intros H. destruct (Z.leb_spec (currentIndex st) 0); [reflexivity | lia].
  - intros H.
    destruct (Z.leb_spec (len (snapshots st) - 1) (currentIndex st));
      [reflexivity | lia].
  - intros H. destruct (Z.leb_spec (currentIndex st) 0); [lia|].
    destruct (at_index_in_range (snapshots st) (currentIndex st - 1))
      as [s Hs]; [lia|].
    exists s. rewrite Hs. repeat split.
  - intros H.
    destruct (Z.leb_spec (len (snapshots st) - 1) (currentIndex st)); [lia|].
    destruct (at_index_in_range (snapshots st) (currentIndex st + 1))
      as [s Hs]; [lia|].
    exists s. rewrite Hs. repeat split.
Qed.

Lemma undo_redo_cursor_witness :
  cursorInvariant Sample.three /\
  currentIndex (fst (SessionHistory.undo Sample.three)) = 1%Z /\
  snapshots (fst (SessionHistory.undo Sample.three))
    = snapshots Sample.three /\
  snd (SessionHistory.undo Sample.three) = Returns (Some (lit "v1")) /\
  SessionHistory.redo Sample.three = (Sample.three, Returns None).
Proof.
  assert (Hc : cursorInvariant Sample.three)
    by (unfold cursorInvariant; vm_compute; split; congruence).
  destruct (undo_redo_cursor Sample.three Hc) as (_ & Hredo & Hundo & _).
  split; [exact Hc|].
  destruct Hundo as (s & Hs & Hi & Hl & Hr); [reflexivity|].
  vm_compute in Hs. injection Hs as <-.
  split; [exact Hi|]. split; [exact Hl|]. split; [exact Hr|].
  apply Hredo. vm_compute. congruence.
Defined.

(** C7: when the insert fails (an error, or no row returned), [saveSnapshot]
    leaves the snapshot list and the cursor as they were, in both hooks. *)
Theorem save_aborted_when_insert_fails (reply : Reply CodeSnapshot) :
  failed reply = true ->
  (forall sid st c p s k,
     let st' := fst (SessionHistory.saveSnapshot sid st c p s k reply) in
     snapshots st' = snapshots st /\ currentIndex st' = currentIndex st) /\
  (forall st c p s k sessionReply,
     let st' :=
       fst (SupabaseHistory.saveSnapshot st c p s k sessionReply reply) in
     snapshots (SupabaseHistory.history st')
       = snapshots (SupabaseHistory.history st) /\
     currentIndex (SupabaseHistory.history st')
       = currentIndex (SupabaseHistory.history st)).
Proof.
  intros Hf. split.
  - intros sid st c p s k. unfold SessionHistory.saveSnapshot. cbv zeta.
    now rewrite saveWith_failed.
  - intros st c p s k sessionReply. cbv zeta.
    unfold SupabaseHistory.saveSnapshot.
    assert (Hcreate :
      let r := match SupabaseHistory.createSession st sessionReply with
               | (st1, Some (a :: sid)) =>
                   let (h, calls) :=
                     saveWith (a :: sid) (SupabaseHistory.history st1)
                       c p s k reply in
                   (SupabaseHistory.withHistory st1 h, calls)
               | (st1, _) => (st1, [])
               end in
      snapshots (SupabaseHistory.history (fst r))
        = snapshots (SupabaseHistory.history st) /\
      currentIndex (SupabaseHistory.history (fst r))
        = currentIndex (SupabaseHistory.history st)).
    { unfold SupabaseHistory.createSession. cbv zeta.
      destruct (failed sessionReply); [now split|].
      destruct (data sessionReply) as [[|b newId]|]; [now split| |now split].
      rewrite saveWith_failed by assumption. now split. }
    destruct (SupabaseHistory.sessionId st) as [[|a sid]|].
    + exact Hcreate.
    + rewrite saveWith_failed by assumption. now split.
    + exact Hcreate.
Qed.

Lemma save_aborted_when_insert_fails_witness :
  failed Sample.refused = true /\
  snapshots (fst (SessionHistory.saveSnapshot Sample.sid Sample.three
                    (lit "v9") (lit "p") (lit "s") [] Sample.refused))
  = snapshots Sample.three /\
  currentIndex (fst (SessionHistory.saveSnapshot Sample.sid Sample.three
                       (lit "v9") (lit "p") (lit "s") [] Sample.refused))
  = 2%Z.
Proof.
  split; [reflexivity|].
  destruct (save_aborted_when_insert_fails Sample.refused eq_refl) as [H _].
  destruct (H Sample.sid Sample.three (lit "v9") (lit "p") (lit "s") [])
    as [H1 H2].
  split; [exact H1 | rewrite H2; reflexivity].
Defined.

(** C4 as stated fails where [undo] has nothing to undo: after a single
    save the cursor is 0, [undo] is a no-op, and the next save gets sequence
    number 1, not the cursor position 0. *)
Lemma undo_then_save_at_first_snapshot :
  reachable Sample.one /\
  ~ undoThenSaveTruncates Sample.sid Sample.one
      (lit "v1") (lit "make it blue") (lit "done") [] Sample.snapB.
Proof.
  split.
  - unfold Sample.one, Sample.save.
    apply reach_save with (stored := Sample.snapA);
      [apply reach_initial | reflexivity | reflexivity | | ].
    + repeat split.
    + simpl. tauto.
  - unfold undoThenSaveTruncates. intros H.
    destruct H as [Hseq _].
    + repeat split.
    + vm_compute. intros [H|[]]. discriminate.
    + vm_compute in Hseq. discriminate.
Qed.

(** C4, amended: in a history reached by saves, undos and redos whose cursor
    is above 0, [undo()] followed by a [save(...)] whose insert succeeds
    gives the new snapshot the cursor position before the undo as its
    sequence number; the resulting list is the snapshots below that position
    followed by the new one, the cursor is back at that position, and no
    snapshot that lay beyond the cursor at save time is in the list.  Both
    hooks agree. *)
Theorem undo_then_save_truncates (st : State) (sid c p s : jsstring)
  (k : list jsstring) (stored : CodeSnapshot) :
  reachable st -> (0 < currentIndex st)%Z ->
  storedAs (insertRow sid (fst (SessionHistory.undo st)) c p s k) stored ->
  ~ In (id stored) (map id (snapshots st)) ->
  let st1 := fst (SessionHistory.undo st) in
  let st2 := fst (SessionHistory.saveSnapshot sid st1 c p s k
                    {| data := Some stored; error := None |}) in
  sequence_number stored = currentIndex st /\
  snapshots st2
    = firstn (Z.to_nat (currentIndex st)) (snapshots st) ++ [stored] /\
  currentIndex st2 = currentIndex st /\
  (forall x, In x (redoTail st1) -> ~ In x (snapshots st2)) /\
  (forall (h : SupabaseHistory.State) sessionReply,
     SupabaseHistory.history h = st ->
     SupabaseHistory.sessionId h = Some sid -> sid <> [] ->
     SupabaseHistory.history
       (fst (SupabaseHistory.saveSnapshot
               (fst (SupabaseHistory.undo h)) c p s k sessionReply
               {| data := Some stored; error := None |})) = st2).
Proof.
  intros Hr Hpos Hstored Hfresh.
  pose proof (reachable_wellFormed st Hr) as (Hc & _ & Hn & _).
  unfold SessionHistory.undo, SessionHistory.saveSnapshot in *.
  assert (Hu : fst (undo st) = setCurrentIndex (currentIndex st - 1) st).
  { rewrite fst_undo. destruct (Z.leb_spec (currentIndex st) 0); [lia|].
    reflexivity. }
  rewrite Hu in *. cbv zeta.
  assert (Hc1 : cursorInvariant (setCurrentIndex (currentIndex st - 1) st)).
  { unfold cursorInvariant in *. simpl. lia. }
  assert (Hact : activeSnapshots (setCurrentIndex (currentIndex st - 1) st)
                 = firstn (Z.to_nat (currentIndex st)) (snapshots st)).
  { rewrite activeSnapshots_prefix by assumption. simpl.
    now replace (currentIndex st - 1 + 1)%Z with (currentIndex st) by lia. }
  assert (Hlen : len (firstn (Z.to_nat (currentIndex st)) (snapshots st))
                 = currentIndex st).
  { unfold cursorInvariant, len in *. rewrite length_firstn. lia. }
  assert (Hsave : fst (saveWith sid (setCurrentIndex (currentIndex st - 1) st)
                         c p s k {| data := Some stored; error := None |})
                  = {| snapshots := firstn (Z.to_nat (currentIndex st))
                                      (snapshots st) ++ [stored];
                       currentIndex := currentIndex st;
                       isLoaded := isLoaded st |}).
  { rewrite (saveWith_stored sid _ c p s k
               {| data := Some stored; error := None |} stored
               eq_refl eq_refl).
    rewrite Hact. f_equal. unfold len in *. rewrite length_app. simpl. lia. }
  rewrite Hsave. cbn [snapshots currentIndex].
  destruct Hstored as (_ & _ & Hseq).
  split; [|split; [|split; [|split]]].
  - rewrite Hseq. simpl. now rewrite Hact.
  - reflexivity.
  - reflexivity.
  - intros x Hx Hin.
    rewrite redoTail_suffix in Hx by assumption. simpl in Hx.
    replace (currentIndex st - 1 + 1)%Z with (currentIndex st) in Hx by lia.
    apply in_app_or in Hin as [Hin|[<-|[]]].
    + apply (in_map id) in Hx, Hin.
      rewrite <- (firstn_skipn (Z.to_nat (currentIndex st)) (snapshots st))
        in Hn.
      rewrite map_app in Hn.
      exact (NoDup_app_disjoint _ _ _ Hn Hin Hx).
    + apply Hfresh. apply in_map.
      rewrite <- (firstn_skipn (Z.to_nat (currentIndex st)) (snapshots st)).
      apply in_or_app. now right.
  - intros h sessionReply Hh Hsid Hne.
    unfold SupabaseHistory.undo, SupabaseHistory.saveSnapshot.
    rewrite Hh.
    destruct (undo st) as [st1 r] eqn:Eu. simpl in Hu. subst st1.
    simpl. rewrite Hsid.
    destruct sid as [|a sid]; [congruence|].
    simpl. rewrite Hact. f_equal.
    unfold len in *. rewrite length_app. simpl. lia.
Qed.

Lemma undo_then_save_truncates_witness :
  reachable Sample.three /\ (0 < currentIndex Sample.three)%Z /\
  sequence_number Sample.snapD = 2%Z /\
  snapshots
    (fst (SessionHistory.saveSnapshot Sample.sid
            (fst (SessionHistory.undo Sample.three))
            (lit "v3") (lit "make it blue") (lit "done") []
            (Sample.stored Sample.snapD)))
  = [Sample.snapA; Sample.snapB; Sample.snapD] /\
  ~ In Sample.snapC
      (snapshots
         (fst (SessionHistory.saveSnapshot Sample.sid
                 (fst (SessionHistory.undo Sample.three))
                 (lit "v3") (lit "make it blue") (lit "done") []
                 (Sample.stored Sample.snapD)))).
Proof.
  assert (Hr : reachable Sample.three).
  { unfold Sample.three, Sample.save.
    apply reach_save with (stored := Sample.snapC);
      [ | reflexivity | reflexivity | repeat split
        | vm_compute; intros [H|[H|[]]]; discriminate ].
    apply reach_save with (stored := Sample.snapB);
      [ | reflexivity | reflexivity | repeat split
        | vm_compute; intros [H|[]]; discriminate ].
    apply reach_save with (stored := Sample.snapA);
      [ apply reach_initial | reflexivity | reflexivity | repeat split
        | simpl; tauto ]. }
  assert (Hs : storedAs
                 (insertRow Sample.sid (fst (SessionHistory.undo Sample.three))
                    (lit "v3") (lit "make it blue") (lit "done") [])
                 Sample.snapD) by (repeat split).
  assert (Hf : ~ In (id Sample.snapD) (map id (snapshots Sample.three)))
    by (vm_compute; intros [H|[H|[H|[]]]]; discriminate).
  destruct (undo_then_save_truncates Sample.three Sample.sid
              (lit "v3") (lit "make it blue") (lit "done") []
              Sample.snapD Hr eq_refl Hs Hf)
    as (Hseq & Hsnaps & _ & Habsent & _).
  split; [exact Hr|]. split; [reflexivity|].
  split; [exact Hseq|]. split; [exact Hsnaps|].
  apply Habsent. vm_compute. now left.
Defined.

End HistoryTheorems.

(** *** Loading and the cursor invariant *)

Section Loading.

(** X25: after [n] saves in a row from the empty history, each stored as
    inserted, the sequence numbers are [0, 1, ..., n-1] in list order, the
    cursor is on the last snapshot, there is something to undo exactly when
    [n > 1], and nothing to redo. *)
Lemma savedN_sequence (n : nat) (st : State) :
  savedN n st ->
  map sequence_number (snapshots st) = map Z.of_nat (seq 0 n) /\
  currentIndex st = (Z.of_nat n - 1)%Z /\
  canUndo st = (1 <? Z.of_nat n)%Z /\
  canRedo st = false.
Proof.
  induction 1 as [|n sid st c p s k reply stored Hs IH Herr Hdata Hst].
  - repeat split.
  - destruct IH as (Hseq & Hidx & _ & _).
    assert (Hlen : length (snapshots st) = n).
    { apply (f_equal (@length Z)) in Hseq.
      now rewrite !length_map, length_seq in Hseq. }
    assert (Hc : cursorInvariant st)
      by (unfold cursorInvariant, len; lia).
    assert (Hact : activeSnapshots st = snapshots st).
    { rewrite activeSnapshots_prefix by assumption.
      apply firstn_all2. lia. }
    rewrite (saveWith_stored sid st c p s k reply stored Herr Hdata).
    rewrite Hact. unfold canUndo, canRedo. cbn [snapshots currentIndex].
    assert (Hl2 : len (snapshots st ++ [stored]) = Z.of_nat (S n)).
    { unfold len. rewrite length_app. simpl. lia. }
    rewrite Hl2.
    destruct Hst as (_ & _ & Hnum).
    cbn [insertRow row_sequence_number] in Hnum.
    rewrite Hact in Hnum. unfold len in Hnum. rewrite Hlen in Hnum.
    repeat split.
    + rewrite map_app, Hseq, seq_S, map_app. cbn [map].
      now rewrite Hnum.
    + destruct (Z.ltb_spec 0 (Z.of_nat (S n) - 1));
        destruct (Z.ltb_spec 1 (Z.of_nat (S n))); lia || reflexivity.
    + apply Z.ltb_irrefl.
Qed.

(** X26: a load that fails, or returns at least one row, or happens in the empty
    history, keeps the cursor invariant. *)
Lemma loadSnapshots_cursorInvariant (st : State)
  (reply : Reply (list CodeSnapshot)) :
  cursorInvariant st ->
  data reply <> Some [] \/ currentIndex st = (-1)%Z ->
  cursorInvariant (SessionHistory.loadSnapshots st reply).
Proof.
  unfold cursorInvariant, SessionHistory.loadSnapshots, rowsOf, failed, len.
  intros Hc Hcase.
  destruct (error reply); [exact Hc|].
  destruct (data reply) as [rows|]; [|exact Hc].
  cbn [snapshots currentIndex].
  destruct (Z.leb_spec 0 (Z.of_nat (length rows) - 1)); [lia|].
  destruct rows as [|r rows]; [|cbn [length] in *; lia].
  destruct Hcase as [Hd|Hi]; [congruence | simpl; lia].
Qed.

(** The sibling hook leaves its history alone when no rows come back. *)
Lemma supabase_load_empty (sid : jsstring) (st : SupabaseHistory.State)
  (err : option jsstring) :
  let st' := SupabaseHistory.loadSnapshots sid st
               {| data := Some []; error := err |} in
  snapshots (SupabaseHistory.history st')
    = snapshots (SupabaseHistory.history st) /\
  currentIndex (SupabaseHistory.history st')
    = currentIndex (SupabaseHistory.history st).
Proof.
  unfold SupabaseHistory.loadSnapshots, rowsOf. simpl.
  now rewrite orb_true_r.
Qed.

(** C5, at a sequence where the invariant breaks: [useSessionHistory] loads
    a session with two snapshots, then is given a session without any.  The
    second load empties the list but keeps the cursor at 1, so
    [currentIndex < length(snapshots)] no longer holds; [canUndo] is true and
    [undo] throws on the missing snapshot. *)
Theorem load_empty_keeps_stale_cursor :
  let h := SessionHistory.run
             [ SessionHistory.Load (lit "session-1")
                 (Sample.rows [Sample.snapA; Sample.snapB]);
               SessionHistory.Load (lit "session-2") (Sample.rows []) ]
             SessionHistory.mounted in
  snapshots (SessionHistory.state h) = [] /\
  currentIndex (SessionHistory.state h) = 1%Z /\
  ~ cursorInvariant (SessionHistory.state h) /\
  canUndo (SessionHistory.state h) = true /\
  snd (SessionHistory.undo (SessionHistory.state h)) = Throws.
Proof.
  cbv zeta. repeat split; try reflexivity.
  unfold cursorInvariant. vm_compute. intros [_ H]. discriminate.
Qed.

End Loading.

(** ** ConversationLedger *)

Import Conversation.

Section Ledger.

(** How [created_at] is read as a time is left open. *)
Variable getTime : jsstring -> Z.

(** C8: the LLM-facing view has no entry with role [error], and every
    assistant entry is the same fixed record, whose content is the
    placeholder: nothing of the message (its code snapshot, its summary)
    goes into it. *)
Theorem getFullContext_redacted (h : Hook) :
  Forall (fun c =>
            ctxRole c <> error /\
            (ctxRole c = assistant ->
             c = {| ctxRole := assistant; ctxContent := GENERATED_CODE;
                    ctxAttachedImages := None |}))
         (getFullContext h).
Proof.
  unfold getFullContext. apply Forall_forall. intros c Hc.
  apply in_map_iff in Hc as (m & <- & Hm).
  apply filter_In in Hm as [_ Hrole].
  unfold contextOf. destruct (role m); simpl in *.
  - split; [discriminate | intros H; discriminate].
  - split; [discriminate | reflexivity].
  - discriminate.
Qed.

(** The view keeps the user and assistant messages, in order. *)
Lemma getFullContext_roles (h : Hook) :
  map ctxRole (getFullContext h) =
  filter (fun r => negb (isError r)) (map role (messages (state h))).
Proof.
  unfold getFullContext. induction (messages (state h)) as [|m l IH];
    [reflexivity|].
  simpl. destruct (role m) eqn:E; simpl; rewrite ?E, ?IH; reflexivity.
Qed.

(** Whatever was done, a raised flag means a last AI generation is
    tracked. *)
Lemma manualEdits_tracked (ops : list Op) :
  forall h,
    (hasManualEdits (state h) = true -> lastAiCodeRef h <> []) ->
    hasManualEdits (state (run getTime ops h)) = true ->
    lastAiCodeRef (run getTime ops h) <> [].
Proof.
  unfold run. induction ops as [|op ops IH]; intros h Hh; [exact Hh|].
  simpl. apply IH.
  destruct op; simpl; try exact Hh; try discriminate.
  unfold markManualEdit.
  destruct (negb (strEq currentCode (lastAiCodeRef h))
            && negb (strEq (lastAiCodeRef h) [])) eqn:E; [|exact Hh].
  simpl. intros _ Hnil. rewrite Hnil in E. simpl in E.
  now rewrite andb_false_r in E.
Qed.

(** As long as no operation has recorded an assistant message, no last AI
    generation is tracked and the flag is down. *)
Lemma no_assistant_no_flag (ops : list Op) :
  forall h,
    lastAiCodeRef h = [] -> hasManualEdits (state h) = false ->
    existsb recordsAssistant ops = false ->
    lastAiCodeRef (run getTime ops h) = [] /\
    hasManualEdits (state (run getTime ops h)) = false.
Proof.
  unfold run. induction ops as [|op ops IH]; intros h Href Hflag Hops;
    [now split|].
  simpl in Hops. apply orb_false_iff in Hops as [Hop Hops].
  assert (Hmark : forall c, markManualEdit h c = h).
  { intro c. unfold markManualEdit. rewrite Href. simpl.
    now rewrite andb_false_r. }
  cbn [fold_left].
  destruct op as [? ? ?|? ? ? ?|? ? ? ?|?| |? snaps|? ?|]; cbn [step];
    simpl in Hop; try discriminate;
    try (apply IH; simpl; assumption || reflexivity).
  - rewrite Hmark. now apply IH.
  - destruct snaps; [|discriminate].
    apply IH; simpl; assumption || reflexivity.
Qed.

(** C10: the flag stays down until an assistant message has been recorded;
    [markManualEdit] changes nothing while the tracked last AI code is
    empty, whatever code it is given; recording an assistant message lowers
    the flag; and a raised flag always comes with a tracked AI generation. *)
Theorem hasManualEdits_needs_generation :
  (forall ops,
     existsb recordsAssistant ops = false ->
     hasManualEdits (state (run getTime ops initial)) = false) /\
  (forall h currentCode,
     lastAiCodeRef h = [] -> markManualEdit h currentCode = h) /\
  (forall h now content codeSnapshot metadata,
     hasManualEdits
       (state (addAssistantMessage h now content codeSnapshot metadata))
     = false) /\
  (forall ops,
     hasManualEdits (state (run getTime ops initial)) = true ->
     lastAiCodeRef (run getTime ops initial) <> []).
Proof.
  repeat split.
  - intros ops Hops.
    now apply (no_assistant_no_flag ops initial eq_refl eq_refl).
  - intros h currentCode Href. unfold markManualEdit. rewrite Href. simpl.
    now rewrite andb_false_r.
  - intros ops. apply manualEdits_tracked. discriminate.
Qed.

End Ledger.

Lemma hasManualEdits_needs_generation_witness :
  existsb recordsAssistant
    [AddUserMessage 1 (lit "a red ball") None;
     MarkManualEdit (lit "const x = 1;");
     AddErrorMessage 2 (lit "failed") api None] = false /\
  hasManualEdits
    (state (run (fun _ => 0%Z)
              [AddUserMessage 1 (lit "a red ball") None;
               MarkManualEdit (lit "const x = 1;");
               AddErrorMessage 2 (lit "failed") api None] initial)) = false /\
  markManualEdit initial (lit "const x = 1;") = initial.
Proof.
  destruct (hasManualEdits_needs_generation (fun _ => 0%Z))
    as (Hflag & Hmark & _).
  split; [reflexivity|]. split.
  - apply Hflag. reflexivity.
  - apply Hmark. reflexivity.
Defined.

(* ================================================================== *)
(** * Part III: further properties of the code                         *)
(* ================================================================== *)

(** ** More on [applyEdits] *)

Section ApplyEditsMore.

Lemma includes_infix (x p y : jsstring) : includes (x ++ p ++ y) p = true.
Proof.
  apply includes_occurrences.
  induction x as [|a x IH].
  - simpl app. destruct p as [|b p].
    + rewrite occurrences_nil_r. lia.
    + change ((b :: p) ++ y) with (b :: (p ++ y)).
      cbn [occurrences startsWith].
      rewrite N.eqb_refl, startsWith_app. simpl. lia.
  - change ((a :: x) ++ p ++ y) with (a :: (x ++ p ++ y)).
    cbn [occurrences].
    destruct (startsWith (a :: x ++ p ++ y) p); lia.
Qed.

Lemma isEditFailure_notFound (i : nat) :
  Generate.isEditFailure (Generate.notFoundMessage i) = true.
Proof.
  unfold Generate.isEditFailure, Generate.notFoundMessage.
  apply andb_true_iff. split.
  - apply (includes_infix [] (lit "Edit")
             ([32%N] ++ numberToString (Z.of_nat i + 1)
                ++ lit " failed: Could not find the specified text")).
  - replace (lit "Edit " ++ numberToString (Z.of_nat i + 1)
               ++ lit " failed: Could not find the specified text")
      with ((lit "Edit " ++ numberToString (Z.of_nat i + 1) ++ [32%N])
              ++ lit "failed"
              ++ lit ": Could not find the specified text")
      by (rewrite <- !app_assoc; reflexivity).
    apply includes_infix.
Qed.

Lemma isEditFailure_ambiguous (i : nat) (matches : Z) :
  Generate.isEditFailure (Generate.ambiguousMessage i matches) = true.
Proof.
  unfold Generate.isEditFailure, Generate.ambiguousMessage.
  apply andb_true_iff. split.
  - apply (includes_infix [] (lit "Edit")
             ([32%N] ++ numberToString (Z.of_nat i + 1)
                ++ lit " failed: Found " ++ numberToString matches
                ++ lit " matches. The edit target is ambiguous.")).
  - replace (lit "Edit " ++ numberToString (Z.of_nat i + 1)
               ++ lit " failed: Found " ++ numberToString matches
               ++ lit " matches. The edit target is ambiguous.")
      with ((lit "Edit " ++ numberToString (Z.of_nat i + 1) ++ [32%N])
              ++ lit "failed"
              ++ (lit ": Found " ++ numberToString matches
                    ++ lit " matches. The edit target is ambiguous."))
      by (rewrite <- !app_assoc; reflexivity).
    apply includes_infix.
Qed.

Lemma applyLoop_failure_shape (code : jsstring)
  (edits : list Generate.EditOperation) :
  forall i buf enr,
    Generate.success (Generate.applyLoop code i buf enr edits) = false ->
    Generate.enrichedEdits (Generate.applyLoop code i buf enr edits) = None /\
    (exists msg,
       Generate.error (Generate.applyLoop code i buf enr edits) = Some msg /\
       Generate.isEditFailure msg = true) /\
    exists e,
      Generate.failedEdit (Generate.applyLoop code i buf enr edits) = Some e /\
      In e edits.
Proof.
  induction edits as [|e rest IH]; intros i buf enr H; simpl in *.
  - discriminate.
  - destruct (negb (includes buf (Generate.old_string e))).
    + simpl. split; [reflexivity|]. split.
      * eexists. split; [reflexivity | apply isEditFailure_notFound].
      * exists e. split; [reflexivity | now left].
    + destruct (1 <? Generate.countMatches buf (Generate.old_string e))%Z.
      * simpl. split; [reflexivity|]. split.
        -- eexists. split; [reflexivity | apply isEditFailure_ambiguous].
        -- exists e. split; [reflexivity | now left].
      * destruct (IH _ _ _ H) as (H1 & H2 & e' & H3 & H4).
        split; [exact H1|]. split; [exact H2|].
        exists e'. split; [exact H3 | now right].
Qed.

(** X1: a call of [applyEdits] that fails returns the original code, no
    enriched edits, one of the given edits as the failed one, and an error
    message that the follow-up prompt recognises as an edit failure. *)
Theorem applyEdits_failure_shape (code : jsstring)
  (edits : list Generate.EditOperation) :
  Generate.success (Generate.applyEdits code edits) = false ->
  Generate.result (Generate.applyEdits code edits) = code /\
  Generate.enrichedEdits (Generate.applyEdits code edits) = None /\
  (exists msg,
     Generate.error (Generate.applyEdits code edits) = Some msg /\
     Generate.isEditFailure msg = true) /\
  exists e,
    Generate.failedEdit (Generate.applyEdits code edits) = Some e /\
    In e edits.
Proof.
  intros H. split.
  - now apply applyLoop_failure_code.
  - now apply applyLoop_failure_shape.
Qed.

Lemma applyEdits_failure_shape_witness :
  Generate.success
    (Generate.applyEdits (lit "color: red")
       [ {| Generate.description := lit "first";
            Generate.old_string := lit "red";
            Generate.new_string := lit "green";
            Generate.lineNumber := None |};
         {| Generate.description := lit "second";
            Generate.old_string := lit "blue";
            Generate.new_string := lit "black";
            Generate.lineNumber := None |} ]) = false /\
  Generate.result
    (Generate.applyEdits (lit "color: red")
       [ {| Generate.description := lit "first";
            Generate.old_string := lit "red";
            Generate.new_string := lit "green";
            Generate.lineNumber := None |};
         {| Generate.description := lit "second";
            Generate.old_string := lit "blue";
            Generate.new_string := lit "black";
            Generate.lineNumber := None |} ]) = lit "color: red".
Proof.
  split; [reflexivity|].
  apply applyEdits_failure_shape. reflexivity.
Defined.

Lemma getLineNumber_positive (code s : jsstring) (j : nat) :
  indexOf code s = Some j -> (1 <= Generate.getLineNumber code s)%Z.
Proof.
  intros H. unfold Generate.getLineNumber, substring. rewrite H.
  rewrite split_length by discriminate. lia.
Qed.

Lemma applyLoop_enriched (code : jsstring)
  (edits : list Generate.EditOperation) :
  forall i buf enr,
    Generate.success (Generate.applyLoop code i buf enr edits) = true ->
    exists new,
      Generate.enrichedEdits (Generate.applyLoop code i buf enr edits)
      = Some (enr ++ new) /\
      Forall2 sameEdit edits new /\ Forall hasLine new.
Proof.
  induction edits as [|e rest IH]; intros i buf enr H; simpl in *.
  - exists []. rewrite app_nil_r. repeat split; constructor.
  - destruct (includes buf (Generate.old_string e)) eqn:Hinc;
      simpl in *; [|discriminate].
    destruct (1 <? Generate.countMatches buf (Generate.old_string e))%Z;
      [discriminate|].
    destruct (IH _ _ _ H) as (new & Hnew & Hsame & Hline).
    eexists (_ :: new). rewrite Hnew, <- app_assoc. simpl.
    split; [reflexivity|]. split.
    + constructor; [|exact Hsame]. repeat split.
    + constructor; [|exact Hline].
      unfold hasLine. simpl. eexists. split; [reflexivity|].
      unfold includes in Hinc.
      destruct (indexOf buf (Generate.old_string e)) as [j|] eqn:E;
        [|discriminate].
      exact (getLineNumber_positive buf (Generate.old_string e) j E).
Qed.

(** X2: a call of [applyEdits] that succeeds returns the edits it was
    given, in the same order and with the same description, [old_string]
    and [new_string], each with a line number of at least 1; it names no
    error and no failed edit. *)
Theorem applyEdits_enriched (code : jsstring)
  (edits : list Generate.EditOperation) :
  Generate.success (Generate.applyEdits code edits) = true ->
  Forall2 sameEdit edits (Generate.enrichedOf (Generate.applyEdits code edits))
  /\ Forall hasLine (Generate.enrichedOf (Generate.applyEdits code edits))
  /\ Generate.enrichedEdits (Generate.applyEdits code edits) <> None.
Proof.
  intros H. unfold Generate.applyEdits in *.
  destruct (applyLoop_enriched code edits 0 code [] H)
    as (new & Hnew & Hsame & Hline).
  unfold Generate.enrichedOf. rewrite Hnew. simpl.
  repeat split; try assumption. discriminate.
Qed.

Lemma applyEdits_enriched_witness :
  Generate.success
    (Generate.applyEdits (lit "color: red")
       [ {| Generate.description := lit "first";
            Generate.old_string := lit "red";
            Generate.new_string := lit "green";
            Generate.lineNumber := None |} ]) = true /\
  Forall hasLine
    (Generate.enrichedOf
       (Generate.applyEdits (lit "color: red")
          [ {| Generate.description := lit "first";
               Generate.old_string := lit "red";
               Generate.new_string := lit "green";
               Generate.lineNumber := None |} ])).
Proof.
  split; [reflexivity|].
  apply applyEdits_enriched. reflexivity.
Defined.

Lemma applyLoop_independent (edits : list Generate.EditOperation) :
  forall c1 c2 i1 i2 buf e1 e2,
    Generate.success (Generate.applyLoop c1 i1 buf e1 edits)
    = Generate.success (Generate.applyLoop c2 i2 buf e2 edits) /\
    (Generate.success (Generate.applyLoop c1 i1 buf e1 edits) = true ->
     Generate.result (Generate.applyLoop c1 i1 buf e1 edits)
     = Generate.result (Generate.applyLoop c2 i2 buf e2 edits)).
Proof.
  induction edits as [|e rest IH]; intros c1 c2 i1 i2 buf e1 e2; simpl.
  - split; reflexivity.
  - destruct (negb (includes buf (Generate.old_string e))); simpl.
    + split; [reflexivity | discriminate].
    + destruct (1 <? Generate.countMatches buf (Generate.old_string e))%Z;
        simpl; [split; [reflexivity | discriminate]|].
      apply IH.
Qed.

(** X3: applying [done ++ rest] is applying [done] and then [rest] to its
    result: once [done] has gone through, the longer call succeeds exactly
    when [rest] applies to the buffer [done] produced, with the same final
    buffer; and if [rest] does not apply, it returns the original code, not
    the buffer [done] produced. *)
Theorem applyEdits_compose (code : jsstring)
  (done rest : list Generate.EditOperation) :
  Generate.success (Generate.applyEdits code done) = true ->
  let buf := Generate.result (Generate.applyEdits code done) in
  Generate.success (Generate.applyEdits code (done ++ rest))
  = Generate.success (Generate.applyEdits buf rest) /\
  (Generate.success (Generate.applyEdits buf rest) = true ->
   Generate.result (Generate.applyEdits code (done ++ rest))
   = Generate.result (Generate.applyEdits buf rest)) /\
  (Generate.success (Generate.applyEdits buf rest) = false ->
   Generate.result (Generate.applyEdits code (done ++ rest)) = code).
Proof.
  intros Hok buf. unfold Generate.applyEdits in *.
  rewrite applyLoop_app by assumption. fold buf.
  destruct (applyLoop_independent rest code buf (0 + length done) 0 buf
              (Generate.enrichedOf (Generate.applyLoop code 0 code [] done))
              []) as [Hs Hr].
  split; [exact Hs|]. split.
  - intros H. apply Hr. now rewrite Hs.
  - intros H. apply applyLoop_failure_code. now rewrite Hs.
Qed.

Lemma applyEdits_compose_witness :
  let e1 := {| Generate.description := lit "first";
               Generate.old_string := lit "red";
               Generate.new_string := lit "green";
               Generate.lineNumber := None |} in
  let e2 := {| Generate.description := lit "second";
               Generate.old_string := lit "green";
               Generate.new_string := lit "blue";
               Generate.lineNumber := None |} in
  Generate.success (Generate.applyEdits (lit "color: red") [e1]) = true /\
  Generate.result (Generate.applyEdits (lit "color: red") ([e1] ++ [e2]))
  = Generate.result (Generate.applyEdits (lit "color: green") [e2]).
Proof.
  cbv zeta. split; [reflexivity|].
  apply (applyEdits_compose (lit "color: red")
           [ {| Generate.description := lit "first";
                Generate.old_string := lit "red";
                Generate.new_string := lit "green";
                Generate.lineNumber := None |} ]
           [ {| Generate.description := lit "second";
                Generate.old_string := lit "green";
                Generate.new_string := lit "blue";
                Generate.lineNumber := None |} ]); reflexivity.
Defined.

End ApplyEditsMore.

(** ** Instances of the lemmas on [applyEdits] and the history *)

Section Instances.

Lemma applyEdits_not_found_witness :
  let e1 := {| Generate.description := lit "first";
               Generate.old_string := lit "red";
               Generate.new_string := lit "green";
               Generate.lineNumber := None |} in
  let e2 := {| Generate.description := lit "second";
               Generate.old_string := lit "red";
               Generate.new_string := lit "blue";
               Generate.lineNumber := None |} in
  Generate.success (Generate.applyEdits (lit "color: red") [e1]) = true /\
  occurrences (Generate.result (Generate.applyEdits (lit "color: red") [e1]))
    (Generate.old_string e2) = 0%nat /\
  Generate.applyEdits (lit "color: red") ([e1] ++ e2 :: []) =
  {| Generate.success := false; Generate.result := lit "color: red";
     Generate.error := Some (Generate.notFoundMessage 1);
     Generate.enrichedEdits := None; Generate.failedEdit := Some e2 |}.
Proof.
  cbv zeta. split; [reflexivity|]. split; [reflexivity|].
  apply (applyEdits_not_found (lit "color: red")); reflexivity.
Defined.

Lemma applyEdits_ambiguous_witness :
  let e := {| Generate.description := lit "recolor";
              Generate.old_string := lit "#FF0000";
              Generate.new_string := lit "#0000FF";
              Generate.lineNumber := None |} in
  Generate.old_string e <> [] /\
  disjointOccurrences (Generate.old_string e) 0
    (lit "a: #FF0000; b: #FF0000") = 2%nat /\
  Generate.applyEdits (lit "a: #FF0000; b: #FF0000") ([] ++ e :: []) =
  {| Generate.success := false;
     Generate.result := lit "a: #FF0000; b: #FF0000";
     Generate.error := Some (Generate.ambiguousMessage 0 2);
     Generate.enrichedEdits := None; Generate.failedEdit := Some e |}.
Proof.
  cbv zeta. split; [discriminate|]. split; [reflexivity|].
  apply (applyEdits_ambiguous (lit "a: #FF0000; b: #FF0000") [] []).
  - reflexivity.
  - discriminate.
  - vm_compute. lia.
Defined.

Lemma applyEdits_single_literal_witness :
  let e := {| Generate.description := lit "recolor";
              Generate.old_string := lit "#FF0000";
              Generate.new_string := lit "#0000FF";
              Generate.lineNumber := None |} in
  occurrences (lit "fill: #FF0000;") (Generate.old_string e) = 1%nat /\
  dollarFree (Generate.new_string e) /\
  replacedLiterally (lit "fill: #FF0000;") e
    (Generate.applyEdits (lit "fill: #FF0000;") [e]).
Proof.
  cbv zeta.
  assert (Hfree : dollarFree (lit "#0000FF")).
  { unfold dollarFree. vm_compute.
    intros H; repeat (destruct H as [H|H]; [discriminate|]); exact H. }
  split; [reflexivity|]. split; [exact Hfree|].
  apply applyEdits_single_literal; [reflexivity | exact Hfree].
Defined.

Lemma getLineNumber_newlines_witness :
  indexOf (lit "a" ++ [LF] ++ lit "b" ++ [LF] ++ lit "target") (lit "target")
  = Some 4%nat /\
  Generate.getLineNumber
    (lit "a" ++ [LF] ++ lit "b" ++ [LF] ++ lit "target") (lit "target")
  = 3%Z.
Proof.
  split; [reflexivity|].
  apply (getLineNumber_newlines
           (lit "a" ++ [LF] ++ lit "b" ++ [LF] ++ lit "target")
           (lit "target") 4).
  reflexivity.
Defined.

Lemma savedN_sequence_witness :
  savedN 3 Sample.three /\
  map sequence_number (snapshots Sample.three) = [0%Z; 1%Z; 2%Z] /\
  canUndo Sample.three = true /\ canRedo Sample.three = false.
Proof.
  assert (H : savedN 3 Sample.three).
  { unfold Sample.three, Sample.one, Sample.save.
    repeat (eapply saved_next;
            [ | reflexivity | reflexivity | repeat split ]).
    apply saved_none. }
  split; [exact H|].
  destruct (savedN_sequence 3 Sample.three H) as (Hseq & _ & Hu & Hr).
  split; [exact Hseq|]. split; [exact Hu | exact Hr].
Defined.

Lemma loadSnapshots_cursorInvariant_witness :
  cursorInvariant Sample.three /\
  cursorInvariant
    (SessionHistory.loadSnapshots Sample.three
       (Sample.rows [Sample.snapA])).
Proof.
  assert (Hc : cursorInvariant Sample.three)
    by (unfold cursorInvariant; vm_compute; split; congruence).
  split; [exact Hc|].
  apply loadSnapshots_cursorInvariant; [exact Hc|].
  left. discriminate.
Defined.

End Instances.

(** ** More on the follow-up decision *)

Section FollowUpMore.

(** X8: an [edit] decision with an edit list is answered by what
    [applyEdits] makes of it on the current code: 200 with the patched
    code, edit type [tool_edit] and the enriched edits when it succeeds;
    400 with type [edit_failed], the error message of [applyEdits] and the
    failed edit [applyEdits] names, which is one of the decision's edits,
    when it does not.  The code of the decision plays no part. *)
Theorem followUpDecision_edit (currentCode summary : jsstring)
  (es : list Generate.EditOperation) (nullableCode : option jsstring)
  (detectedSkills : list jsstring) (modelName : jsstring) :
  let response := {| Generate.type := Generate.edit;
                     Generate.summary := summary;
                     Generate.edits := Some es;
                     Generate.code := nullableCode |} in
  let r := Generate.applyEdits currentCode es in
  (Generate.success r = true ->
   Generate.followUpDecision currentCode response detectedSkills modelName
   = Generate.Json200 (Generate.result r) summary detectedSkills
       Generate.tool_edit (Generate.enrichedEdits r) modelName) /\
  (Generate.success r = false ->
   exists msg e,
     Generate.error r = Some msg /\ Generate.failedEdit r = Some e /\
     Generate.isEditFailure msg = true /\ In e es /\
     Generate.followUpDecision currentCode response detectedSkills modelName
     = Generate.Json400 msg (lit "edit_failed") (Some e)).
Proof.
  cbv zeta. unfold Generate.followUpDecision. simpl. split.
  - intros ->. reflexivity.
  - intros H. rewrite H. simpl.
    destruct (applyLoop_failure_shape currentCode es 0 currentCode [] H)
      as (_ & (msg & Hmsg & Hfail) & e & He & Hin).
    fold (Generate.applyEdits currentCode es) in Hmsg, He.
    exists msg, e. rewrite Hmsg, He. simpl. auto.
Qed.

Lemma followUpDecision_edit_witness :
  let e := {| Generate.description := lit "recolor";
              Generate.old_string := lit "#FF0000";
              Generate.new_string := lit "#0000FF";
              Generate.lineNumber := None |} in
  Generate.success (Generate.applyEdits (lit "fill: #FF0000;") [e]) = true /\
  Generate.followUpDecision (lit "fill: #FF0000;")
    {| Generate.type := Generate.edit; Generate.summary := lit "made it blue";
       Generate.edits := Some [e]; Generate.code := None |}
    [] (lit "gpt-5.2")
  = Generate.Json200 (lit "fill: #0000FF;") (lit "made it blue") []
      Generate.tool_edit
      (Some [ {| Generate.description := lit "recolor";
                 Generate.old_string := lit "#FF0000";
                 Generate.new_string := lit "#0000FF";
                 Generate.lineNumber := Some 1%Z |} ])
      (lit "gpt-5.2").
Proof.
  cbv zeta. split; [reflexivity|].
  apply (followUpDecision_edit (lit "fill: #FF0000;") (lit "made it blue")
           [ {| Generate.description := lit "recolor";
                Generate.old_string := lit "#FF0000";
                Generate.new_string := lit "#0000FF";
                Generate.lineNumber := None |} ] None [] (lit "gpt-5.2")).
  reflexivity.
Defined.

(** X9: the invalid-response answer is given exactly when the decision
    lacks its payload: kind [edit] with null edits, or kind [full] with a
    null or empty code.  In particular no failure of [applyEdits] is
    reported as an invalid response. *)
Theorem followUpDecision_invalid_iff (currentCode : jsstring)
  (response : Generate.FollowUpResponse) (detectedSkills : list jsstring)
  (modelName : jsstring) :
  Generate.followUpDecision currentCode response detectedSkills modelName
  = Generate.invalidResponse
  <->
  (Generate.type response = Generate.edit /\
   Generate.edits response = None) \/
  (Generate.type response = Generate.full /\
   Generate.truthyString (Generate.code response) = false).
Proof.
  split; [|apply followUpDecision_missing_payload].
  unfold Generate.followUpDecision.
  destruct (Generate.type response); simpl.
  - destruct (Generate.edits response) as [es|] eqn:Ees; simpl;
      [|intros _; left; now split].
    destruct (Generate.success (Generate.applyEdits currentCode es)) eqn:Hs;
      simpl; [discriminate|].
    destruct (applyLoop_failure_shape currentCode es 0 currentCode [] Hs)
      as (_ & _ & e & He & _).
    fold (Generate.applyEdits currentCode es) in He.
    rewrite He. unfold Generate.invalidResponse. discriminate.
  - destruct (Generate.truthyString (Generate.code response)) eqn:Hc;
      [discriminate|].
    intros _. right. now split.
Qed.

End FollowUpMore.

(** ** Request parsing in the generation route *)

Section RequestParsing.

Lemma existsb_strEq (s : jsstring) (l : list jsstring) :
  existsb (strEq s) l = true <-> In s l.
Proof.
  rewrite existsb_exists. split.
  - intros (x & Hx & Heq). apply strEq_eq in Heq. now subst.
  - intros H. exists s. split; [exact H | now apply strEq_eq].
Qed.

(** X10: the composition dimensions are always those of an entry of
    [ASPECT_RATIOS]: the entry with the requested identifier when there is
    one, and the first entry, 16:9 at 1920x1080, for every other request. *)
Theorem arConfig_lookup (aspectRatio : option jsstring) :
  In (Generate.arConfig aspectRatio) Generate.ASPECT_RATIOS /\
  (forall ar, In ar Generate.ASPECT_RATIOS ->
     Generate.arConfig (Some (Generate.id ar)) = ar) /\
  ((forall ar, In ar Generate.ASPECT_RATIOS ->
      aspectRatio <> Some (Generate.id ar)) ->
   Generate.id (Generate.arConfig aspectRatio) = lit "16:9" /\
   Generate.width (Generate.arConfig aspectRatio) = 1920%Z /\
   Generate.height (Generate.arConfig aspectRatio) = 1080%Z).
Proof.
  split; [|split].
  - unfold Generate.arConfig.
    destruct (find _ Generate.ASPECT_RATIOS) as [ar|] eqn:E.
    + now apply find_some in E.
    + simpl. now left.
  - intros ar Har. simpl in Har.
    destruct Har as [<-|[<-|[<-|[]]]]; reflexivity.
  - intros Hnone. unfold Generate.arConfig.
    destruct (find _ Generate.ASPECT_RATIOS) as [ar|] eqn:E.
    + apply find_some in E as [Hin Heq].
      destruct aspectRatio as [a|]; [|discriminate].
      apply strEq_eq in Heq. subst a.
      exfalso. now apply (Hnone ar).
    + repeat split.
Qed.

(** *** Model identifiers *)

Lemma indexOf_unit_notin (c : codeunit) (s : jsstring) :
  ~ In c s -> indexOf s [c] = None.
Proof.
  induction s as [|a s IH]; intros H; [reflexivity|].
  rewrite indexOf_cons. cbn [startsWith].
  destruct (N.eqb_spec c a) as [->|Hne].
  - exfalso. apply H. now left.
  - simpl. rewrite IH; [reflexivity|]. intros Hin. apply H. now right.
Qed.

Lemma indexOf_unit_first (c : codeunit) (name rest : jsstring) :
  ~ In c name -> indexOf (name ++ c :: rest) [c] = Some (length name).
Proof.
  induction name as [|a name IH]; intros H.
  - simpl app. destruct rest; simpl; now rewrite N.eqb_refl.
  - change ((a :: name) ++ c :: rest) with (a :: (name ++ c :: rest)).
    rewrite indexOf_cons. cbn [startsWith].
    destruct (N.eqb_spec c a) as [->|Hne].
    + exfalso. apply H. now left.
    + simpl. rewrite IH; [reflexivity|]. intros Hin. apply H. now right.
Qed.

Lemma splitLoop_fuel (sep : jsstring) (f1 : nat) :
  sep <> [] ->
  forall f2 s, (length s <= f1)%nat -> (length s <= f2)%nat ->
    splitLoop f1 s sep = splitLoop f2 s sep.
Proof.
  intros Hsep. induction f1 as [|f1 IH]; intros f2 s H1 H2.
  - destruct s; [|simpl in H1; lia].
    destruct f2; simpl; [reflexivity|].
    now rewrite startsWith_nil_l.
  - destruct f2 as [|f2].
    + destruct s; [|simpl in H2; lia].
      simpl. now rewrite startsWith_nil_l.
    + simpl. destruct (indexOf s sep) as [j|] eqn:E; [|reflexivity].
      f_equal. apply IH; rewrite length_skipn;
        destruct sep; try congruence; simpl; lia.
Qed.

Lemma split_unit_notin (c : codeunit) (s : jsstring) :
  ~ In c s -> split s [c] = [s].
Proof.
  intros H. unfold split. destruct s as [|a s]; [reflexivity|].
  cbn [splitLoop length]. now rewrite indexOf_unit_notin.
Qed.

Lemma split_unit_first (c : codeunit) (name rest : jsstring) :
  ~ In c name -> split (name ++ c :: rest) [c] = name :: split rest [c].
Proof.
  intros H. unfold split.
  destruct (name ++ c :: rest) as [|a s] eqn:E.
  { destruct name; discriminate. }
  rewrite <- E. clear E a s.
  rewrite length_app. cbn [length]. rewrite Nat.add_succ_r.
  cbn [splitLoop]. rewrite indexOf_unit_first by assumption.
  rewrite firstn_app, Nat.sub_diag, firstn_all. simpl firstn.
  rewrite app_nil_r. f_equal.
  replace (skipn (length name + length [c]) (name ++ c :: rest)) with rest.
  2:{ rewrite skipn_app, skipn_all2 by (simpl; lia).
      replace (length name + length [c] - length name)%nat with 1%nat
        by (simpl; lia).
      reflexivity. }
  destruct rest as [|b rest].
  - match goal with |- splitLoop ?n _ _ = _ => destruct n; reflexivity end.
  - apply splitLoop_fuel; [discriminate| |]; simpl; lia.
Qed.

Lemma startsWith_In (s p : jsstring) (c : codeunit) :
  startsWith s p = true -> In c p -> In c s.
Proof.
  intros H Hin. apply startsWith_inv in H. rewrite H.
  apply in_or_app. now left.
Qed.

Lemma colon_free_prefix (c : codeunit) (a b x y : jsstring) :
  ~ In c a -> ~ In c b -> a ++ c :: x = b ++ c :: y -> a = b.
Proof.
  revert b; induction a as [|u a IH]; intros [|v b] Ha Hb H; simpl in *.
  - reflexivity.
  - injection H as -> _. exfalso. apply Hb. now left.
  - injection H as -> _. exfalso. apply Ha. now left.
  - injection H as -> H. f_equal. apply IH with (b := b); auto.
Qed.

(** X11: a model identifier is read back as it is written.  For a model
    name and a reasoning effort without a colon, [name], [name:effort],
    [bedrock:name] and [bedrock:name:effort] give back the name, the effort
    when there is one, and whether the provider prefix was there; only the
    name [bedrock] itself, followed by an effort, is taken for the
    prefix. *)
Theorem parseModel_roundtrip (name effort : jsstring) :
  ~ In 58%N name -> ~ In 58%N effort ->
  Generate.parseModel name = (false, Some name, None) /\
  Generate.parseModel (lit "bedrock:" ++ name) = (true, Some name, None) /\
  Generate.parseModel (lit "bedrock:" ++ name ++ lit ":" ++ effort)
  = (true, Some name, Some effort) /\
  (name <> lit "bedrock" ->
   Generate.parseModel (name ++ lit ":" ++ effort)
   = (false, Some name, Some effort)) /\
  Generate.parseModel (lit "bedrock" ++ lit ":" ++ effort)
  = (true, Some effort, None).
Proof.
  intros Hn He.
  assert (Hprefix : forall rest,
            startsWith (lit "bedrock:" ++ rest) (lit "bedrock:") = true)
    by (intro; apply startsWith_app).
  assert (Hslice : forall rest,
            sliceFrom (lit "bedrock:" ++ rest)
              (Z.of_nat (length (lit "bedrock:"))) = rest).
  { intro rest. rewrite sliceFrom_suffix.
    - rewrite Nat2Z.id. apply skipn_app_l || reflexivity.
    - unfold len. rewrite length_app. lia. }
  assert (Hname : startsWith name (lit "bedrock:") = false).
  { destruct (startsWith name (lit "bedrock:")) eqn:E; [|reflexivity].
    exfalso. apply Hn.
    apply (startsWith_In name (lit "bedrock:") 58%N E).
    vm_compute. tauto. }
  assert (Hsplit2 : split (name ++ lit ":" ++ effort) (lit ":")
                    = [name; effort]).
  { change (lit ":") with [58%N]. change ([58%N] ++ effort) with (58%N :: effort).
    rewrite split_unit_first by assumption.
    now rewrite split_unit_notin. }
  assert (Hsplit1 : split name (lit ":") = [name])
    by (change (lit ":") with [58%N]; now apply split_unit_notin).
  unfold Generate.parseModel.
  split; [|split; [|split; [|split]]].
  - now rewrite Hname, Hsplit1.
  - now rewrite Hprefix, Hslice, Hsplit1.
  - now rewrite Hprefix, Hslice, Hsplit2.
  - intros Hne.
    assert (Hs : startsWith (name ++ lit ":" ++ effort) (lit "bedrock:")
                 = false).
    { destruct (startsWith (name ++ lit ":" ++ effort) (lit "bedrock:"))
        eqn:E; [|reflexivity].
      exfalso. apply Hne. apply startsWith_inv in E.
      change (lit ":" ++ effort) with (58%N :: effort) in E.
      change (lit "bedrock:" ++
              skipn (length (lit "bedrock:")) (name ++ 58%N :: effort))
        with (lit "bedrock" ++ 58%N ::
              skipn (length (lit "bedrock:")) (name ++ 58%N :: effort)) in E.
      apply (colon_free_prefix 58%N _ _ _ _ Hn) in E; [exact E|].
      vm_compute. intros H.
      repeat (destruct H as [H|H]; [discriminate|]). exact H. }
    now rewrite Hs, Hsplit2.
  - change (lit "bedrock" ++ lit ":" ++ effort)
      with (lit "bedrock:" ++ effort).
    rewrite Hprefix, Hslice.
    change (lit ":") with [58%N]. now rewrite split_unit_notin.
Qed.

Lemma parseModel_roundtrip_witness :
  ~ In 58%N (lit "gpt-5.2") /\ ~ In 58%N (lit "high") /\
  Generate.parseModel (lit "gpt-5.2" ++ lit ":" ++ lit "high")
  = (false, Some (lit "gpt-5.2"), Some (lit "high")) /\
  Generate.parseModel (lit "bedrock:" ++ lit "gpt-5.2")
  = (true, Some (lit "gpt-5.2"), None).
Proof.
  assert (Hn : ~ In 58%N (lit "gpt-5.2")).
  { vm_compute. intros H.
    repeat (destruct H as [H|H]; [discriminate|]). exact H. }
  assert (He : ~ In 58%N (lit "high")).
  { vm_compute. intros H.
    repeat (destruct H as [H|H]; [discriminate|]). exact H. }
  destruct (parseModel_roundtrip (lit "gpt-5.2") (lit "high") Hn He)
    as (_ & Hb & _ & Hplain & _).
  split; [exact Hn|]. split; [exact He|]. split; [|exact Hb].
  apply Hplain. discriminate.
Defined.

End RequestParsing.

(** ** The follow-up prompt and the ledger's views *)

Section PromptAndLedger.

Lemma sliceFrom_last {A : Type} (l : list A) (n : nat) :
  sliceFrom l (- Z.of_nat (S n)) = skipn (length l - S n) l.
Proof.
  unfold sliceFrom, slice, relativeIndex.
  destruct (Z.ltb_spec (- Z.of_nat (S n)) 0); [|lia].
  destruct (Z.ltb_spec (Z.of_nat (length l)) 0); [lia|].
  rewrite Z.min_id.
  replace (Z.to_nat (Z.max (Z.of_nat (length l) + - Z.of_nat (S n)) 0))
    with (length l - S n)%nat by lia.
  apply firstn_all2. rewrite length_skipn. lia.
Qed.

Lemma contextMessages_last (history : list Generate.ConversationContextMessage) :
  Generate.contextMessages history = skipn (length history - 6) history.
Proof. apply (sliceFrom_last history 5). Qed.

(** X12: only the six most recent messages of the conversation history
    reach the follow-up prompt: whatever precedes them changes neither the
    messages taken nor the text of the "recent conversation" block. *)
Theorem conversationContext_recent
  (old recent : list Generate.ConversationContextMessage) :
  length recent = 6%nat ->
  Generate.contextMessages (old ++ recent) = recent /\
  Generate.conversationContext (old ++ recent)
  = Generate.conversationContext recent.
Proof.
  intros H.
  assert (H1 : Generate.contextMessages (old ++ recent) = recent).
  { rewrite contextMessages_last, length_app, H.
    replace (length old + 6 - 6)%nat with (length old) by lia.
    now rewrite skipn_app, skipn_all, Nat.sub_diag. }
  assert (H2 : Generate.contextMessages recent = recent).
  { rewrite contextMessages_last, H. reflexivity. }
  split; [exact H1|].
  unfold Generate.conversationContext. now rewrite H1, H2.
Qed.

Lemma conversationContext_recent_witness :
  let m (t : string) :=
    {| Generate.role := Generate.user; Generate.content := lit t;
       Generate.attachedImages := None |} in
  Generate.contextMessages
    ([m "first"%string; m "second"%string]
       ++ [m "a"%string; m "b"%string; m "c"%string;
           m "d"%string; m "e"%string; m "f"%string])
  = [m "a"%string; m "b"%string; m "c"%string;
     m "d"%string; m "e"%string; m "f"%string].
Proof.
  cbv zeta.
  apply (conversationContext_recent
           [ {| Generate.role := Generate.user;
                Generate.content := lit "first";
                Generate.attachedImages := None |};
             {| Generate.role := Generate.user;
                Generate.content := lit "second";
                Generate.attachedImages := None |} ]).
  reflexivity.
Defined.

(** X13: a history of at most six messages is taken whole, and the block
    is empty exactly for the empty history. *)
Theorem conversationContext_short
  (history : list Generate.ConversationContextMessage) :
  ((length history <= 6)%nat -> Generate.contextMessages history = history)
  /\ (Generate.conversationContext history = [] <-> history = []).
Proof.
  split.
  - intros H. rewrite contextMessages_last.
    now replace (length history - 6)%nat with 0%nat by lia.
  - unfold Generate.conversationContext. rewrite contextMessages_last.
    split.
    + destruct (skipn (length history - 6) history) as [|m ms] eqn:E;
        [|discriminate].
      intros _. apply (f_equal (@length _)) in E.
      rewrite length_skipn in E. cbn [length] in E.
      assert (H0 : length history = 0%nat) by lia.
      destruct history; [reflexivity | discriminate].
    + intros ->. reflexivity.
Qed.

(** *** The ledger's view in the prompt *)

(** X14: in the prompt built from the ledger's context view, the line of
    every assistant message is [ASSISTANT: [Generated Code]]: no generated
    code and no summary enters the prompt through the history. *)
Theorem assistant_lines_redacted (h : Conversation.Hook)
  (m : Generate.ConversationContextMessage) :
  In m (Generate.contextMessages
          (map Conversation.toRequest (Conversation.getFullContext h))) ->
  Generate.role m = Generate.assistant ->
  Generate.contextLine m = lit "ASSISTANT: [Generated Code]".
Proof.
  intros Hin Hrole.
  rewrite contextMessages_last in Hin.
  assert (Hin' : In m (map Conversation.toRequest
                         (Conversation.getFullContext h))).
  { rewrite <- (firstn_skipn
                  (length (map Conversation.toRequest
                             (Conversation.getFullContext h)) - 6)).
    apply in_or_app. now right. }
  apply in_map_iff in Hin' as (c & <- & Hc).
  unfold Conversation.getFullContext in Hc.
  apply in_map_iff in Hc as (msg & <- & Hmsg).
  apply filter_In in Hmsg as [_ Hkeep].
  unfold Conversation.toRequest, Conversation.contextOf in *.
  simpl in *.
  destruct (Conversation.role msg); simpl in *;
    try discriminate; reflexivity.
Qed.

Lemma assistant_lines_redacted_witness :
  let h := Conversation.addAssistantMessage
             (Conversation.addUserMessage Conversation.initial 1
                (lit "a red ball") None)
             2 (lit "Here it is") (lit "const secret = 42;") None in
  let m := {| Generate.role := Generate.assistant;
              Generate.content := Conversation.GENERATED_CODE;
              Generate.attachedImages := None |} in
  In m (Generate.contextMessages
          (map Conversation.toRequest (Conversation.getFullContext h))) /\
  Generate.contextLine m = lit "ASSISTANT: [Generated Code]" /\
  Generate.conversationContext
    (map Conversation.toRequest (Conversation.getFullContext h))
  = [LF; LF] ++ lit "## RECENT CONVERSATION:" ++ [LF]
      ++ lit "USER: a red ball" ++ [LF]
      ++ lit "ASSISTANT: [Generated Code]".
Proof.
  cbv zeta.
  assert (Hin : In {| Generate.role := Generate.assistant;
                      Generate.content := Conversation.GENERATED_CODE;
                      Generate.attachedImages := None |}
                  (Generate.contextMessages
                     (map Conversation.toRequest
                        (Conversation.getFullContext
                           (Conversation.addAssistantMessage
                              (Conversation.addUserMessage
                                 Conversation.initial 1
                                 (lit "a red ball") None)
                              2 (lit "Here it is")
                              (lit "const secret = 42;") None)))))
    by (right; left; reflexivity).
  split; [exact Hin|]. split; [|reflexivity].
  exact (assistant_lines_redacted _ _ Hin eq_refl).
Defined.

(** *** Skills *)

Lemma setAdd_In (s x : jsstring) (set : list jsstring) :
  In x (Conversation.setAdd s set) <-> x = s \/ In x set.
Proof.
  unfold Conversation.setAdd.
  destruct (existsb (strEq s) set) eqn:E.
  - apply existsb_strEq in E. split; [now right|].
    intros [->|H]; assumption.
  - rewrite in_app_iff. simpl. split.
    + intros [H|[<-|[]]]; [now right | now left].
    + intros [->|H]; [right; now left | now left].
Qed.

Lemma setAdd_NoDup (s : jsstring) (set : list jsstring) :
  NoDup set -> NoDup (Conversation.setAdd s set).
Proof.
  intros H. unfold Conversation.setAdd.
  destruct (existsb (strEq s) set) eqn:E; [exact H|].
  apply NoDup_app; [exact H | repeat constructor; intros [] |].
  intros x Hx [<-|[]].
  apply existsb_strEq in Hx. congruence.
Qed.

Lemma addAll_spec (skills set : list jsstring) :
  NoDup set ->
  NoDup (fold_left (fun set skill => Conversation.setAdd skill set) skills set)
  /\ forall x,
       In x (fold_left (fun set skill => Conversation.setAdd skill set)
               skills set)
       <-> In x skills \/ In x set.
Proof.
  revert set; induction skills as [|k skills IH]; intros set Hn; simpl.
  - split; [exact Hn|]. intros x. tauto.
  - destruct (IH (Conversation.setAdd k set) (setAdd_NoDup k set Hn))
      as [Hnd Hin].
    split; [exact Hnd|]. intros x. rewrite Hin, setAdd_In. intuition.
Qed.

(** The skills an assistant message of the log carries. *)
Lemma usedSkills_spec (msgs : list Conversation.ConversationMessage) :
  forall set, NoDup set ->
    let collect :=
      fold_left
        (fun allSkills m =>
           if Conversation.isAssistant (Conversation.role m) then
             match Conversation.metadata m with
             | Some md =>
                 fold_left (fun set skill => Conversation.setAdd skill set)
                   (Conversation.skills md) allSkills
             | None => allSkills
             end
           else allSkills) msgs set in
    NoDup collect /\
    forall x, In x collect <->
      In x set \/
      exists m md, In m msgs /\
        Conversation.role m = Conversation.assistant /\
        Conversation.metadata m = Some md /\
        In x (Conversation.skills md).
Proof.
  induction msgs as [|m msgs IH]; intros set Hn; cbv zeta; simpl.
  - split; [exact Hn|]. intros x. split; [now left|].
    intros [H|(m & md & [] & _)]. exact H.
  - destruct (Conversation.isAssistant (Conversation.role m)) eqn:Er.
    + destruct (Conversation.metadata m) as [md|] eqn:Em.
      * destruct (addAll_spec (Conversation.skills md) set Hn) as [Hnd Hin].
        destruct (IH _ Hnd) as [Hnd' Hin'].
        split; [exact Hnd'|]. intros x. rewrite Hin', Hin. split.
        -- intros [[H|H]|(m' & md' & H1 & H2 & H3 & H4)].
           ++ right. exists m, md. repeat split; auto.
              destruct (Conversation.role m); try discriminate; reflexivity.
           ++ now left.
           ++ right. exists m', md'. repeat split; auto.
        -- intros [H|(m' & md' & [<-|H1] & H2 & H3 & H4)].
           ++ left. now right.
           ++ rewrite Em in H3. injection H3 as <-. left. now left.
           ++ right. exists m', md'. repeat split; auto.
      * destruct (IH _ Hn) as [Hnd' Hin'].
        split; [exact Hnd'|]. intros x. rewrite Hin'. split.
        -- intros [H|(m' & md' & H1 & H2 & H3 & H4)]; [now left|].
           right. exists m', md'. repeat split; auto.
        -- intros [H|(m' & md' & [<-|H1] & H2 & H3 & H4)];
             [now left | congruence |].
           right. exists m', md'. repeat split; auto.
    + destruct (IH _ Hn) as [Hnd' Hin'].
      split; [exact Hnd'|]. intros x. rewrite Hin'. split.
      * intros [H|(m' & md' & H1 & H2 & H3 & H4)]; [now left|].
        right. exists m', md'. repeat split; auto.
      * intros [H|(m' & md' & [<-|H1] & H2 & H3 & H4)]; [now left | |].
        -- rewrite H2 in Er. discriminate.
        -- right. exists m', md'. repeat split; auto.
Qed.

(** X15: [getPreviouslyUsedSkills] lists every skill of an assistant
    message's metadata, once each, and nothing else: user and error
    messages, and assistant messages without metadata, contribute
    nothing. *)
Theorem getPreviouslyUsedSkills_spec (h : Conversation.Hook) :
  NoDup (Conversation.getPreviouslyUsedSkills h) /\
  forall x,
    In x (Conversation.getPreviouslyUsedSkills h) <->
    exists m md,
      In m (Conversation.messages (Conversation.state h)) /\
      Conversation.role m = Conversation.assistant /\
      Conversation.metadata m = Some md /\
      In x (Conversation.skills md).
Proof.
  destruct (usedSkills_spec (Conversation.messages (Conversation.state h))
              [] (NoDup_nil _)) as [Hnd Hin].
  split; [exact Hnd|]. intros x.
  unfold Conversation.getPreviouslyUsedSkills. rewrite Hin.
  split; [intros [[]|H]; exact H | now right].
Qed.

(** X16: the route loads the content of a detected skill only if no
    assistant message of the ledger has carried it: with the ledger's list
    of used skills, [newSkills] keeps the detected skills that are new, in
    their order, and drops the others. *)
Theorem used_skills_not_reloaded (h : Conversation.Hook)
  (detectedSkills : list jsstring) (x : jsstring) :
  In x (Generate.newSkills detectedSkills
          (Conversation.getPreviouslyUsedSkills h))
  <->
  In x detectedSkills /\
  ~ exists m md,
      In m (Conversation.messages (Conversation.state h)) /\
      Conversation.role m = Conversation.assistant /\
      Conversation.metadata m = Some md /\
      In x (Conversation.skills md).
Proof.
  unfold Generate.newSkills. rewrite filter_In.
  destruct (usedSkills_spec (Conversation.messages (Conversation.state h))
              [] (NoDup_nil _)) as [_ Hin].
  fold (Conversation.getPreviouslyUsedSkills h) in Hin.
  split.
  - intros [Hd Hnew]. split; [exact Hd|]. intros Hused.
    apply negb_true_iff in Hnew.
    assert (Hx : In x (Conversation.getPreviouslyUsedSkills h))
      by (apply Hin; now right).
    apply existsb_strEq in Hx. congruence.
  - intros [Hd Hnot]. split; [exact Hd|].
    apply negb_true_iff.
    destruct (existsb (strEq x) (Conversation.getPreviouslyUsedSkills h))
      eqn:E; [|reflexivity].
    exfalso. apply Hnot. apply existsb_strEq in E.
    apply Hin in E as [[]|E]. exact E.
Qed.

End PromptAndLedger.

(** ** More on the conversation ledger *)

Section LedgerMore.

Variable getTime : jsstring -> Z.

Lemma carriesImages_user (m : Conversation.ConversationMessage) :
  Conversation.carriesImages m = true ->
  exists imgs, userWithImages m imgs.
Proof.
  unfold Conversation.carriesImages, userWithImages. intros H.
  apply andb_true_iff in H as [Hr Hi].
  destruct (Conversation.attachedImages m) as [[|i imgs]|];
    try discriminate.
  exists (i :: imgs). repeat split; [|discriminate].
  destruct (Conversation.role m); try discriminate; reflexivity.
Qed.

Lemma scanAttachedImages_None (l : list Conversation.ConversationMessage) :
  Conversation.scanAttachedImages l = None <->
  forall m, In m l -> Conversation.carriesImages m = false.
Proof.
  induction l as [|m l IH]; simpl.
  - split; [intros _ m [] | reflexivity].
  - destruct (Conversation.carriesImages m) eqn:E.
    + split.
      * intros H. destruct (carriesImages_user m E) as (imgs & _ & Hi & _).
        congruence.
      * intros H. specialize (H m (or_introl eq_refl)). congruence.
    + rewrite IH. split.
      * intros H m' [<-|Hin]; auto.
      * intros H m' Hin. apply H. now right.
Qed.

Lemma scanAttachedImages_Some (l : list Conversation.ConversationMessage)
  (imgs : list jsstring) :
  Conversation.scanAttachedImages l = Some imgs ->
  exists later m earlier,
    l = later ++ m :: earlier /\ userWithImages m imgs /\
    forall m', In m' later -> Conversation.carriesImages m' = false.
Proof.
  induction l as [|m l IH]; simpl; [discriminate|].
  destruct (Conversation.carriesImages m) eqn:E.
  - intros H. exists [], m, l. split; [reflexivity|]. split.
    + destruct (carriesImages_user m E) as (imgs' & Hr & Hi & Hne).
      rewrite Hi in H. injection H as <-. now repeat split.
    + intros m' [].
  - intros H. destruct (IH H) as (later & m0 & earlier & -> & Hu & Hl).
    exists (m :: later), m0, earlier. split; [reflexivity|].
    split; [exact Hu|]. intros m' [<-|Hin]; auto.
Qed.

(** X17: [getLastUserAttachedImages] returns the images of the most recent
    user message that has any: a non-empty list, attached to a user message
    after which no user message carries images; and it returns nothing
    exactly when no user message of the log carries images. *)
Theorem getLastUserAttachedImages_spec (h : Conversation.Hook) :
  (Conversation.getLastUserAttachedImages h = None <->
   forall m, In m (Conversation.messages (Conversation.state h)) ->
     Conversation.carriesImages m = false) /\
  (forall imgs,
     Conversation.getLastUserAttachedImages h = Some imgs ->
     exists before m after,
       Conversation.messages (Conversation.state h) = before ++ m :: after /\
       userWithImages m imgs /\
       forall m', In m' after -> Conversation.carriesImages m' = false).
Proof.
  unfold Conversation.getLastUserAttachedImages. split.
  - rewrite scanAttachedImages_None. split; intros H m Hin; apply H.
    + now apply in_rev in Hin.
    + now apply in_rev.
  - intros imgs H.
    destruct (scanAttachedImages_Some _ _ H)
      as (later & m & earlier & Hl & Hu & Hnone).
    exists (rev earlier), m, (rev later). split; [|split; [exact Hu|]].
    + rewrite <- (rev_involutive
                    (Conversation.messages (Conversation.state h))), Hl.
      rewrite rev_app_distr. simpl. now rewrite <- app_assoc.
    + intros m' Hin. apply Hnone. now apply in_rev.
Qed.

(** X18: what each operation of the ledger does to the LLM-facing view:
    a user message appends its content (with its images, if it has any),
    an assistant message appends the placeholder entry, and an error
    message, a manual edit and the pending-message operations leave the view
    as it is. *)
Theorem getFullContext_step (h : Conversation.Hook) (now : Z)
  (content : jsstring) :
  (forall imgs,
     Conversation.getFullContext
       (Conversation.addUserMessage h now content imgs)
     = Conversation.getFullContext h ++
       [ {| Conversation.ctxRole := Conversation.user;
            Conversation.ctxContent := content;
            Conversation.ctxAttachedImages :=
              match imgs with
              | Some (i :: l) => Some (i :: l)
              | _ => None
              end |} ]) /\
  (forall code md,
     Conversation.getFullContext
       (Conversation.addAssistantMessage h now content code md)
     = Conversation.getFullContext h ++
       [ {| Conversation.ctxRole := Conversation.assistant;
            Conversation.ctxContent := Conversation.GENERATED_CODE;
            Conversation.ctxAttachedImages := None |} ]) /\
  (forall t fe,
     Conversation.getFullContext
       (Conversation.addErrorMessage h now content t fe)
     = Conversation.getFullContext h) /\
  (forall code,
     Conversation.getFullContext (Conversation.markManualEdit h code)
     = Conversation.getFullContext h) /\
  (forall ks,
     Conversation.getFullContext (Conversation.setPendingMessage h now ks)
     = Conversation.getFullContext h) /\
  Conversation.getFullContext (Conversation.clearPendingMessage h)
  = Conversation.getFullContext h.
Proof.
  unfold Conversation.getFullContext.
  split; [|split; [|split; [|split; [|split]]]].
  - intros imgs. simpl. rewrite filter_app, map_app. reflexivity.
  - intros code md. simpl. rewrite filter_app, map_app. reflexivity.
  - intros t fe. simpl. rewrite filter_app, map_app. simpl.
    now rewrite app_nil_r.
  - intros code. unfold Conversation.markManualEdit.
    destruct (negb (strEq code (Conversation.lastAiCodeRef h)) &&
              negb (strEq (Conversation.lastAiCodeRef h) [])); reflexivity.
  - intros ks. reflexivity.
  - reflexivity.
Qed.

(** X19: after an assistant message with code [code], [markManualEdit]
    raises the flag exactly when it is given a code that differs from
    [code], and [code] is not empty; it never changes the log or the tracked
    AI code. *)
Theorem markManualEdit_after_generation (h : Conversation.Hook) (now : Z)
  (content code : jsstring) (md : option Conversation.AssistantMetadata)
  (current : jsstring) :
  let h1 := Conversation.addAssistantMessage h now content code md in
  let h2 := Conversation.markManualEdit h1 current in
  (Conversation.hasManualEdits (Conversation.state h2) = true <->
   current <> code /\ code <> []) /\
  Conversation.messages (Conversation.state h2)
  = Conversation.messages (Conversation.state h1) /\
  Conversation.lastAiCodeRef h2 = code.
Proof.
  cbv zeta. unfold Conversation.markManualEdit. simpl.
  destruct (strEq current code) eqn:E1; simpl.
  - apply strEq_eq in E1. subst current.
    split; [|split; reflexivity].
    split; [discriminate|]. intros [Hd _]. congruence.
  - assert (Hne : current <> code).
    { intros ->. rewrite (proj2 (strEq_eq code code) eq_refl) in E1.
      discriminate. }
    destruct (strEq code []) eqn:E2; simpl.
    + apply strEq_eq in E2. subst code.
      split; [|split; reflexivity].
      split; [discriminate|]. intros [_ Hd]. congruence.
    + split; [|split; reflexivity].
      split; [|reflexivity].
      intros _. split; [exact Hne|]. intros ->. discriminate.
Qed.

Lemma assistant_codes (snaps : list History.CodeSnapshot) :
  map Conversation.codeSnapshot
    (filter (fun m => Conversation.isAssistant (Conversation.role m))
       (flat_map (Conversation.messagesOfSnapshot getTime) snaps))
  = map (fun s => Some (History.code s)) snaps.
Proof.
  induction snaps as [|s snaps IH]; [reflexivity|].
  cbn [flat_map]. rewrite filter_app, map_app, IH.
  unfold Conversation.messagesOfSnapshot.
  destruct (History.prompt s) as [[|c cs]|]; reflexivity.
Qed.

(** X20: restoring the ledger from the snapshots of a session gives one
    assistant message per snapshot, in order, each holding the code of its
    snapshot; the manual-edit flag is down; and the tracked AI code is the
    history's latest code, so that marking this very code is not a manual
    edit. *)
Theorem initializeFromSnapshots_restores (h : Conversation.Hook) (now : Z)
  (st : History.State) :
  let h' := Conversation.initializeFromSnapshots getTime h now
              (History.snapshots st) in
  map Conversation.codeSnapshot
    (filter (fun m => Conversation.isAssistant (Conversation.role m))
       (Conversation.messages (Conversation.state h')))
  = map (fun s => Some (History.code s)) (History.snapshots st) /\
  Conversation.hasManualEdits (Conversation.state h') = false /\
  (forall c, History.latestCode st = Some c ->
     Conversation.lastAiCodeRef h' = c /\
     Conversation.markManualEdit h' c = h').
Proof.
  cbv zeta. split; [apply assistant_codes|]. split; [reflexivity|].
  intros c Hc. unfold History.latestCode in Hc.
  assert (Href : Conversation.lastAiCodeRef
                   (Conversation.initializeFromSnapshots getTime h now
                      (History.snapshots st)) = c).
  { simpl.
    destruct (at_index (History.snapshots st)
                (History.len (History.snapshots st) - 1));
      [now injection Hc | discriminate]. }
  split; [exact Href|].
  unfold Conversation.markManualEdit. rewrite Href.
  now rewrite (proj2 (strEq_eq c c) eq_refl).
Qed.

End LedgerMore.

(** ** More on the history hooks *)

Section HistoryMore.

Lemma reachable_three : reachable Sample.three.
Proof.
  unfold Sample.three, Sample.save.
  apply reach_save with (stored := Sample.snapC);
    [ | reflexivity | reflexivity | repeat split
      | vm_compute; intros [H|[H|[]]]; discriminate ].
  apply reach_save with (stored := Sample.snapB);
    [ | reflexivity | reflexivity | repeat split
      | vm_compute; intros [H|[]]; discriminate ].
  apply reach_save with (stored := Sample.snapA);
    [ apply reach_initial | reflexivity | reflexivity | repeat split
      | simpl; tauto ].
Qed.

(** X21: every history reached from the empty one by saves, undos and
    redos keeps the cursor within [-1 <= currentIndex < length], has cursor
    [-1] exactly when it is empty, holds no identifier twice, and numbers
    its snapshots [0, 1, ...] in list order, whatever was truncated on the
    way. *)
Theorem history_invariants (st : State) :
  reachable st ->
  (-1 <= currentIndex st < len (snapshots st))%Z /\
  (currentIndex st = (-1)%Z <-> snapshots st = []) /\
  NoDup (map History.id (snapshots st)) /\
  map sequence_number (snapshots st)
  = map Z.of_nat (seq 0 (length (snapshots st))).
Proof.
  intros H. destruct (reachable_wellFormed st H) as (H1 & H2 & H3 & H4).
  repeat split; try assumption; try apply H1; try apply H2.
Qed.

Lemma history_invariants_witness :
  reachable (fst (SessionHistory.undo Sample.three)) /\
  currentIndex (fst (SessionHistory.undo Sample.three)) = 1%Z /\
  map sequence_number (snapshots (fst (SessionHistory.undo Sample.three)))
  = [0%Z; 1%Z; 2%Z].
Proof.
  assert (H : reachable (fst (SessionHistory.undo Sample.three)))
    by (apply reach_undo, reachable_three).
  split; [exact H|]. split; [reflexivity|].
  exact (proj2 (proj2 (proj2 (history_invariants _ H)))).
Defined.

(** X22: undo and redo are inverse to each other.  In a history that
    satisfies the cursor invariant, an undo that moves the cursor followed
    by a redo, and a redo that moves the cursor from a snapshot followed by
    an undo, give back the state they started from; the second call returns
    the code of the snapshot the cursor started on. *)
Theorem undo_redo_roundtrip (st : State) :
  cursorInvariant st ->
  ((0 < currentIndex st)%Z ->
   exists s, at_index (snapshots st) (currentIndex st) = Some s /\
     SessionHistory.redo (fst (SessionHistory.undo st))
     = (st, Returns (Some (code s)))) /\
  ((0 <= currentIndex st < len (snapshots st) - 1)%Z ->
   exists s, at_index (snapshots st) (currentIndex st) = Some s /\
     SessionHistory.undo (fst (SessionHistory.redo st))
     = (st, Returns (Some (code s)))).
Proof.
  unfold cursorInvariant, SessionHistory.undo, SessionHistory.redo.
  destruct st as [snaps idx loaded]. simpl. intros Hc. split.
  - intros Hpos.
    destruct (at_index_in_range snaps idx) as [s Hs]; [lia|].
    exists s. split; [exact Hs|].
    rewrite fst_undo. simpl.
    destruct (Z.leb_spec idx 0); [lia|].
    unfold redo, setCurrentIndex. simpl.
    destruct (Z.leb_spec (len snaps - 1) (idx - 1)); [lia|].
    replace (idx - 1 + 1)%Z with idx by lia.
    now rewrite Hs.
  - intros Hin.
    destruct (at_index_in_range snaps idx) as [s Hs]; [lia|].
    exists s. split; [exact Hs|].
    rewrite fst_redo. simpl.
    destruct (Z.leb_spec (len snaps - 1) idx); [lia|].
    unfold undo, setCurrentIndex. simpl.
    destruct (Z.leb_spec (idx + 1) 0); [lia|].
    replace (idx + 1 - 1)%Z with idx by lia.
    now rewrite Hs.
Qed.

Lemma undo_redo_roundtrip_witness :
  cursorInvariant Sample.three /\
  SessionHistory.redo (fst (SessionHistory.undo Sample.three))
  = (Sample.three, Returns (Some (lit "v2"))).
Proof.
  assert (Hc : cursorInvariant Sample.three)
    by (unfold cursorInvariant; vm_compute; split; congruence).
  split; [exact Hc|].
  destruct (proj1 (undo_redo_roundtrip Sample.three Hc) eq_refl)
    as (s & Hs & Hr).
  vm_compute in Hs. injection Hs as <-. exact Hr.
Defined.

(** X23: the undo and redo controls are enabled exactly when the call does
    something: [canUndo] is false if and only if [undo] returns nothing and
    leaves the state alone, and likewise for [canRedo] and [redo]. *)
Theorem canUndo_canRedo_exact (st : State) :
  (canUndo st = false <-> SessionHistory.undo st = (st, Returns None)) /\
  (canRedo st = false <-> SessionHistory.redo st = (st, Returns None)).
Proof.
  unfold canUndo, canRedo, SessionHistory.undo, SessionHistory.redo,
    undo, redo.
  destruct st as [snaps idx loaded]. simpl. split.
  - destruct (Z.ltb_spec 0 idx); destruct (Z.leb_spec idx 0); try lia.
    + split; [discriminate|].
      destruct (at_index snaps (idx - 1)); unfold setCurrentIndex; simpl;
        intros Heq; injection Heq as Heq; lia.
    + split; reflexivity.
  - destruct (Z.ltb_spec idx (len snaps - 1));
      destruct (Z.leb_spec (len snaps - 1) idx); try lia.
    + split; [discriminate|].
      destruct (at_index snaps (idx + 1)); unfold setCurrentIndex; simpl;
        intros Heq; injection Heq as Heq; lia.
    + split; reflexivity.
Qed.

Lemma saveWith_calls (sid : jsstring) (st : State) (c p s : jsstring)
  (k : list jsstring) (reply : Reply CodeSnapshot) (stored : CodeSnapshot) :
  History.error reply = None -> data reply = Some stored ->
  snd (saveWith sid st c p s k reply) =
  Insert (insertRow sid st c p s k) ::
  (if (currentIndex st <? len (snapshots st) - 1)%Z
   then [Delete (map History.id (redoTail st))] else []).
Proof.
  intros He Hd. unfold saveWith, failed. now rewrite He, Hd.
Qed.

(** X24: a successful save deletes from the remote store exactly the
    snapshots it drops from memory: in a history with the cursor invariant
    and no identifier twice, a snapshot's identifier is among the deleted
    ones if and only if the snapshot lay beyond the cursor, and no snapshot
    kept in memory is deleted.  One row is inserted, numbered by the length
    of the kept prefix. *)
Theorem save_deletes_dropped (sid : jsstring) (st : State)
  (c p s : jsstring) (k : list jsstring) (reply : Reply CodeSnapshot)
  (stored : CodeSnapshot) :
  cursorInvariant st -> NoDup (map History.id (snapshots st)) ->
  History.error reply = None -> data reply = Some stored ->
  let st' := fst (SessionHistory.saveSnapshot sid st c p s k reply) in
  let calls := snd (SessionHistory.saveSnapshot sid st c p s k reply) in
  snapshots st' = activeSnapshots st ++ [stored] /\
  snapshots st = activeSnapshots st ++ redoTail st /\
  (forall x, In x (snapshots st) ->
     (In (History.id x) (deletedIds calls) <-> In x (redoTail st)) /\
     (In x (activeSnapshots st) -> ~ In (History.id x) (deletedIds calls)))
  /\ insertedRows calls = [insertRow sid st c p s k]
  /\ row_sequence_number (insertRow sid st c p s k)
     = (currentIndex st + 1)%Z.
Proof.
  intros Hc Hn He Hd. cbv zeta. unfold SessionHistory.saveSnapshot.
  rewrite (saveWith_stored sid st c p s k reply stored He Hd).
  rewrite (saveWith_calls sid st c p s k reply stored He Hd).
  pose proof (activeSnapshots_prefix st Hc) as Ha.
  pose proof (redoTail_suffix st Hc) as Ht.
  assert (Hsplit : snapshots st = activeSnapshots st ++ redoTail st)
    by (rewrite Ha, Ht; symmetry; apply firstn_skipn).
  assert (Hdel : deletedIds
                   (Insert (insertRow sid st c p s k) ::
                    (if (currentIndex st <? len (snapshots st) - 1)%Z
                     then [Delete (map History.id (redoTail st))] else []))
                 = map History.id (redoTail st)).
  { unfold deletedIds. simpl.
    destruct (Z.ltb_spec (currentIndex st) (len (snapshots st) - 1)).
    - simpl. now rewrite app_nil_r.
    - simpl. rewrite Ht, skipn_all2; [reflexivity|].
      unfold cursorInvariant, len in *. lia. }
  rewrite Hdel.
  assert (Hdisj : forall x, In x (activeSnapshots st) ->
                    ~ In (History.id x) (map History.id (redoTail st))).
  { intros x Hx Hin. rewrite Hsplit, map_app in Hn.
    exact (NoDup_app_disjoint _ _ _ Hn (in_map History.id _ _ Hx) Hin). }
  split; [reflexivity|]. split; [exact Hsplit|]. split; [|split].
  - intros x Hx. split; [|apply Hdisj].
    split; [|apply in_map].
    intros Hin. rewrite Hsplit in Hx.
    apply in_app_or in Hx as [Hx|Hx]; [|exact Hx].
    exfalso. exact (Hdisj x Hx Hin).
  - unfold insertedRows. simpl.
    destruct (currentIndex st <? len (snapshots st) - 1)%Z; reflexivity.
  - simpl. now apply activeSnapshots_len.
Qed.

Lemma save_deletes_dropped_witness :
  let st := fst (SessionHistory.undo Sample.three) in
  let calls :=
    snd (SessionHistory.saveSnapshot Sample.sid st (lit "v3")
           (lit "make it blue") (lit "done") []
           (Sample.stored Sample.snapD)) in
  cursorInvariant st /\ NoDup (map History.id (snapshots st)) /\
  forall x, In x (snapshots st) ->
    (In (History.id x) (deletedIds calls) <-> In x (redoTail st)) /\
    (In x (activeSnapshots st) -> ~ In (History.id x) (deletedIds calls)).
Proof.
  cbv zeta.
  assert (Hc : cursorInvariant (fst (SessionHistory.undo Sample.three)))
    by (unfold cursorInvariant; vm_compute; split; congruence).
  assert (Hn : NoDup (map History.id
                        (snapshots (fst (SessionHistory.undo Sample.three))))).
  { vm_compute. repeat constructor; simpl; intuition discriminate. }
  split; [exact Hc|]. split; [exact Hn|].
  exact (proj1 (proj2 (proj2
           (save_deletes_dropped Sample.sid
              (fst (SessionHistory.undo Sample.three))
              (lit "v3") (lit "make it blue") (lit "done") []
              (Sample.stored Sample.snapD) Sample.snapD
              Hc Hn eq_refl eq_refl)))).
Defined.

End HistoryMore.

(** ** The hook that keeps its session in localStorage *)

Section SupabaseMore.

(** X27: whatever the store answers, a load in [useSupabaseHistory] keeps
    the cursor invariant.  On an error, a null result or no rows the
    history and the session identifier are left untouched and the stored
    session identifier is dropped; on a reply with rows the rows are taken,
    the cursor is on the last of them, the session is the one loaded and
    the stored session identifier is kept. *)
Theorem supabase_load_keeps_invariant (sid : jsstring)
  (st : SupabaseHistory.State) (reply : Reply (list CodeSnapshot)) :
  cursorInvariant (SupabaseHistory.history st) ->
  let st' := SupabaseHistory.loadSnapshots sid st reply in
  cursorInvariant (SupabaseHistory.history st') /\
  isLoaded (SupabaseHistory.history st') = true /\
  (failed reply = true \/ data reply = Some [] ->
   History.snapshots (SupabaseHistory.history st')
     = History.snapshots (SupabaseHistory.history st) /\
   currentIndex (SupabaseHistory.history st')
     = currentIndex (SupabaseHistory.history st) /\
   SupabaseHistory.sessionId st' = SupabaseHistory.sessionId st /\
   SupabaseHistory.storedSessionId st' = None) /\
  (forall rows,
     History.error reply = None -> data reply = Some rows -> rows <> [] ->
     History.snapshots (SupabaseHistory.history st') = rows /\
     currentIndex (SupabaseHistory.history st') = (len rows - 1)%Z /\
     SupabaseHistory.sessionId st' = Some sid /\
     SupabaseHistory.storedSessionId st'
       = SupabaseHistory.storedSessionId st).
Proof.
  intros Hc. cbv zeta.
  unfold SupabaseHistory.loadSnapshots, rowsOf, failed.
  destruct (History.error reply) as [e|].
  - simpl. split; [exact Hc|]. split; [reflexivity|]. split.
    + intros _. repeat split.
    + intros rows He. discriminate.
  - destruct (data reply) as [rows|].
    + destruct rows as [|r rows].
      * simpl. split; [exact Hc|]. split; [reflexivity|]. split.
        -- intros _. repeat split.
        -- intros rows _ Hd Hne. congruence.
      * assert (Hl : (len (r :: rows) =? 0)%Z = false).
        { apply Z.eqb_neq. unfold len. cbn [length]. lia. }
        rewrite Hl.
        cbn [orb SupabaseHistory.history SupabaseHistory.sessionId
             SupabaseHistory.storedSessionId History.snapshots currentIndex
             isLoaded].
        split; [unfold cursorInvariant, len; cbn [History.snapshots
                  currentIndex length]; lia|].
        split; [reflexivity|]. split.
        -- intros [Hf|Hd]; discriminate.
        -- intros rows' _ Hd _. injection Hd as <-. repeat split.
    + simpl. split; [exact Hc|]. split; [reflexivity|]. split.
      * intros _. repeat split.
      * intros rows _ Hd. discriminate.
Qed.

Lemma supabase_load_keeps_invariant_witness :
  let st := SupabaseHistory.loadSnapshots (lit "session-1")
              SupabaseHistory.initial
              (Sample.rows [Sample.snapA; Sample.snapB]) in
  cursorInvariant (SupabaseHistory.history st) /\
  cursorInvariant
    (SupabaseHistory.history
       (SupabaseHistory.loadSnapshots (lit "session-2") st
          (Sample.rows []))) /\
  History.snapshots
    (SupabaseHistory.history
       (SupabaseHistory.loadSnapshots (lit "session-2") st
          (Sample.rows [])))
  = [Sample.snapA; Sample.snapB].
Proof.
  cbv zeta.
  assert (Hc : cursorInvariant
                 (SupabaseHistory.history
                    (SupabaseHistory.loadSnapshots (lit "session-1")
                       SupabaseHistory.initial
                       (Sample.rows [Sample.snapA; Sample.snapB]))))
    by (unfold cursorInvariant; vm_compute; split; congruence).
  split; [exact Hc|].
  destruct (supabase_load_keeps_invariant (lit "session-2") _
              (Sample.rows []) Hc) as (H1 & _ & H2 & _).
  split; [exact H1|].
  destruct H2 as (H2 & _); [right; reflexivity|].
  exact H2.
Defined.

(** X28: a save in a hook without a session creates the session first.
    When the creation fails, nothing is inserted and the state is left as it
    was; when it succeeds, the one row inserted carries the new session
    identifier, which is also kept in localStorage, whether or not the
    insert then succeeds. *)
Theorem supabase_save_creates_session (st : SupabaseHistory.State)
  (c p s : jsstring) (k : list jsstring)
  (sessionReply : Reply jsstring) (reply : Reply CodeSnapshot) :
  SupabaseHistory.sessionId st = None ->
  let r := SupabaseHistory.saveSnapshot st c p s k sessionReply reply in
  (failed sessionReply = true -> r = (st, [])) /\
  (forall newId, History.error sessionReply = None ->
     data sessionReply = Some newId -> newId <> [] ->
     SupabaseHistory.sessionId (fst r) = Some newId /\
     SupabaseHistory.storedSessionId (fst r) = Some newId /\
     insertedRows (snd r)
       = [insertRow newId (SupabaseHistory.history st) c p s k]).
Proof.
  intros Hs. cbv zeta. unfold SupabaseHistory.saveSnapshot.
  rewrite Hs. unfold SupabaseHistory.createSession. split.
  - intros Hf. now rewrite Hf.
  - intros newId He Hd Hne. unfold failed. rewrite He, Hd.
    destruct newId as [|n newId]; [congruence|]. cbn [SupabaseHistory.history].
    unfold saveWith, failed, SupabaseHistory.withHistory.
    unfold insertedRows.
    destruct (History.error reply), (data reply);
      cbn [fst snd SupabaseHistory.sessionId SupabaseHistory.storedSessionId
           flat_map app];
      repeat split.
    destruct (Z.ltb _ _); reflexivity.
Qed.

Lemma supabase_save_creates_session_witness :
  SupabaseHistory.sessionId SupabaseHistory.initial = None /\
  SupabaseHistory.saveSnapshot SupabaseHistory.initial (lit "v0")
    (lit "a red ball") (lit "done") []
    {| data := None; History.error := Some (lit "offline") |}
    (Sample.stored Sample.snapA)
  = (SupabaseHistory.initial, []).
Proof.
  split; [reflexivity|].
  exact (proj1 (supabase_save_creates_session SupabaseHistory.initial
                  (lit "v0") (lit "a red ball") (lit "done") []
                  {| data := None; History.error := Some (lit "offline") |}
                  (Sample.stored Sample.snapA) eq_refl) eq_refl).
Defined.

(** X29: [startNewSession] starts over.  Whatever the history was, the
    next successful save creates a session, inserts one row with sequence
    number 0, deletes nothing, and leaves a history of exactly the stored
    snapshot with nothing to undo or redo. *)
Theorem startNewSession_then_save (st : SupabaseHistory.State)
  (c p s : jsstring) (k : list jsstring) (newId : jsstring)
  (sessionReply : Reply jsstring) (reply : Reply CodeSnapshot)
  (stored : CodeSnapshot) :
  History.error sessionReply = None -> data sessionReply = Some newId ->
  newId <> [] ->
  History.error reply = None -> data reply = Some stored ->
  let r := SupabaseHistory.saveSnapshot (SupabaseHistory.startNewSession st)
             c p s k sessionReply reply in
  History.snapshots (SupabaseHistory.history (fst r)) = [stored] /\
  currentIndex (SupabaseHistory.history (fst r)) = 0%Z /\
  canUndo (SupabaseHistory.history (fst r)) = false /\
  canRedo (SupabaseHistory.history (fst r)) = false /\
  SupabaseHistory.sessionId (fst r) = Some newId /\
  deletedIds (snd r) = [] /\
  map row_sequence_number (insertedRows (snd r)) = [0%Z] /\
  map row_session_id (insertedRows (snd r)) = [newId].
Proof.
  intros He Hd Hne He' Hd'. cbv zeta.
  unfold SupabaseHistory.saveSnapshot, SupabaseHistory.startNewSession.
  cbn [SupabaseHistory.sessionId].
  unfold SupabaseHistory.createSession, failed. rewrite He, Hd.
  destruct newId as [|n newId]; [congruence|].
  cbn [SupabaseHistory.history].
  unfold saveWith, failed. rewrite He', Hd'.
  repeat split.
Qed.

Lemma startNewSession_then_save_witness :
  let r := SupabaseHistory.saveSnapshot
             (SupabaseHistory.startNewSession
                (SupabaseHistory.loadSnapshots (lit "session-1")
                   SupabaseHistory.initial
                   (Sample.rows [Sample.snapA; Sample.snapB])))
             (lit "v0") (lit "a red ball") (lit "done") []
             {| data := Some (lit "session-9"); History.error := None |}
             (Sample.stored Sample.snapA) in
  History.snapshots (SupabaseHistory.history (fst r)) = [Sample.snapA] /\
  deletedIds (snd r) = [].
Proof.
  cbv zeta.
  destruct (startNewSession_then_save
              (SupabaseHistory.loadSnapshots (lit "session-1")
                 SupabaseHistory.initial
                 (Sample.rows [Sample.snapA; Sample.snapB]))
              (lit "v0") (lit "a red ball") (lit "done") []
              (lit "session-9")
              {| data := Some (lit "session-9"); History.error := None |}
              (Sample.stored Sample.snapA) Sample.snapA
              eq_refl eq_refl ltac:(discriminate) eq_refl eq_refl)
    as (H1 & _ & _ & _ & _ & H2 & _).
  split; [exact H1 | exact H2].
Defined.

End SupabaseMore.

(** ** The landing page *)

Section LandingFacts.

Import Landing.

(** X30: [formatRelativeDate] by the age in milliseconds.  Under a minute,
    and for any date in the future, the text is "Just now"; from a minute on
    it counts whole minutes from 1 to 59, from an hour on whole hours from 1
    to 23, from a day on whole days from 1 to 6; from seven days on, and for
    an invalid date, it is the locale date. *)
Theorem formatRelativeDate_ranges (localeDate : jsstring) (diff : Z) :
  ((diff < 60000)%Z ->
     formatRelativeDate localeDate (Some diff) = lit "Just now") /\
  ((60000 <= diff < 3600000)%Z ->
     exists m, (1 <= m <= 59)%Z /\ (60000 * m <= diff < 60000 * (m + 1))%Z /\
       formatRelativeDate localeDate (Some diff)
       = numberToString m ++ lit "m ago") /\
  ((3600000 <= diff < 86400000)%Z ->
     exists h, (1 <= h <= 23)%Z /\
       (3600000 * h <= diff < 3600000 * (h + 1))%Z /\
       formatRelativeDate localeDate (Some diff)
       = numberToString h ++ lit "h ago") /\
  ((86400000 <= diff < 604800000)%Z ->
     exists d, (1 <= d <= 6)%Z /\
       (86400000 * d <= diff < 86400000 * (d + 1))%Z /\
       formatRelativeDate localeDate (Some diff)
       = numberToString d ++ lit "d ago") /\
  ((604800000 <= diff)%Z ->
     formatRelativeDate localeDate (Some diff) = localeDate) /\
  formatRelativeDate localeDate None = localeDate.
Proof.
  unfold formatRelativeDate.
  pose proof (Z.div_mod diff 60000 ltac:(lia)) as E1.
  pose proof (Z.mod_pos_bound diff 60000 ltac:(lia)) as B1.
  pose proof (Z.div_mod diff 3600000 ltac:(lia)) as E2.
  pose proof (Z.mod_pos_bound diff 3600000 ltac:(lia)) as B2.
  pose proof (Z.div_mod diff 86400000 ltac:(lia)) as E3.
  pose proof (Z.mod_pos_bound diff 86400000 ltac:(lia)) as B3.
  set (mins := (diff / 60000)%Z) in *.
  set (hours := (diff / 3600000)%Z) in *.
  set (days := (diff / 86400000)%Z) in *.
  repeat split.
  - intros H. destruct (Z.ltb_spec mins 1); [reflexivity|lia].
  - intros H. exists mins.
    destruct (Z.ltb_spec mins 1); [lia|].
    destruct (Z.ltb_spec mins 60); [|lia].
    repeat split; lia.
  - intros H. exists hours.
    destruct (Z.ltb_spec mins 1); [lia|].
    destruct (Z.ltb_spec mins 60); [lia|].
    destruct (Z.ltb_spec hours 24); [|lia].
    repeat split; lia.
  - intros H. exists days.
    destruct (Z.ltb_spec mins 1); [lia|].
    destruct (Z.ltb_spec mins 60); [lia|].
    destruct (Z.ltb_spec hours 24); [lia|].
    destruct (Z.ltb_spec days 7); [|lia].
    repeat split; lia.
  - intros H.
    destruct (Z.ltb_spec mins 1); [lia|].
    destruct (Z.ltb_spec mins 60); [lia|].
    destruct (Z.ltb_spec hours 24); [lia|].
    destruct (Z.ltb_spec days 7); [lia|reflexivity].
Qed.

End LandingFacts.
